(** * Message delivery and conversation aggregation of the chat server

    A shallow embedding of [server/models/messageModel.js],
    [server/services/messageService.js] and
    [server/controllers/messageController.js].

    Conventions of the model:
    - user ids and message ids arrive as strings; an absent id and the empty
      id are both falsy in JavaScript and take the same branch, so the model
      writes both as the empty string;
    - an [ObjectId] is written as the 24 hexadecimal digits that its
      [toString()] gives. Mongoose casts a string to an [ObjectId] where the
      schema or the query asks for one: the [sender] of a new message and the
      argument of [findById], [findByIdAndDelete] and of a filter on [_id].
      The cast is a parameter of the model, [castObjectId]; where it fails
      Mongoose throws. [users] is declared [Array] and is not cast, and an
      aggregation pipeline is not cast either;
    - a [Date] is its number of milliseconds, a [Z];
    - the [Messages] collection is the list of its documents in insertion
      order, the upload directory is the set of the files it holds, named
      relative to the server directory ([path.join(__dirname, '..', p)]);
    - what MongoDB chooses on an insert (the new [_id]) and the two clock
      readings of an insert are arguments of the operation that inserts: the
      schema default [time: Date.now] is read when the document is built,
      the [timestamps] option stamps [createdAt] and [updatedAt] with one
      reading when the document is saved;
    - of the exceptions of Mongoose the model keeps those of a cast that
      fails; a failure of the database itself and the branch of [addMessage]
      for a falsy [newMessage] are left out; of the errors of [jwt.verify]
      the message handlers keep the [JsonWebTokenError] that they answer
      themselves;
    - MongoDB does not say in which order a sort returns documents that are
      equal on the sort key. [find_sorted_result] says what it promises;
      where a function needs one order the model takes that of a stable merge
      sort of the collection;
    - in an aggregation expression a field path such as ["$users.0"] names
      the field ["0"] of the elements of [users], not a position in the
      array. *)

From Stdlib Require Import Ascii.
From stdpp Require Import base option strings list gmap sorting relations.

Local Open Scope string_scope.
Local Open Scope list_scope.
Local Open Scope Z_scope.

(** ** JavaScript truthiness of the request fields *)

(** [!s] for a string that may be empty. *)
Definition falsy (s : string) : bool := bool_decide (s = "").

(** [!t] for an optional string: [undefined] and [""] are falsy. *)
Definition falsy_opt (t : option string) : bool :=
  match t with
  | None => true
  | Some s => falsy s
  end.

(** ** Object ids *)

(** A hexadecimal digit, in lower case. *)
Definition hex_lower (c : ascii) : option ascii :=
  let n := nat_of_ascii c in
  if (48 <=? n)%nat && (n <=? 57)%nat then Some c
  else if (97 <=? n)%nat && (n <=? 102)%nat then Some c
  else if (65 <=? n)%nat && (n <=? 70)%nat then Some (ascii_of_nat (n + 32))
  else None.

Fixpoint hex_digits (s : string) : option string :=
  match s with
  | EmptyString => Some EmptyString
  | String c s' =>
      match hex_lower c, hex_digits s' with
      | Some c', Some s'' => Some (String c' s'')
      | _, _ => None
      end
  end.

(** The cast of the examples: a string of 24 hexadecimal digits is the id
    with those digits, which [toString()] prints in lower case, and no other
    string is an id. Every version of the driver casts a string of 24
    hexadecimal digits so; some also take a string of 12 bytes. *)
Definition hex24 (s : string) : option string :=
  if decide (String.length s = 24%nat) then hex_digits s else None.

(** A call of Mongoose returns, or throws an exception, of which the
    callers read the [name]. *)
Inductive Answer (A : Type) : Type :=
  | Returns (a : A)
  | Throws (name : string).
Arguments Returns {A} a.
Arguments Throws {A} name.

(** ** The message schema ([messageSchema]) *)

(** [enum: ['text', 'image', 'mixed']] *)
Inductive MessageType : Type := Text | Image | Mixed.

Global Instance MessageType_eq_dec : EqDecision MessageType.
Proof. solve_decision. Defined.

Module Content.
(** The embedded [message] document: [{ text?, image?, type }]. *)
Record t : Type := mk {
  text : option string;
  image : option string;
  type : MessageType
}.

Global Instance eq_dec : EqDecision t.
Proof. solve_decision. Defined.
End Content.

Module Msg.
(** A document of the [Messages] collection. [_id] and [sender] are
    [ObjectId]s, written as their digits; [users] holds the strings the
    caller put there; [createdAt] and [updatedAt] come from
    [timestamps: true]. *)
Record t : Type := mk {
  _id : string;
  message : Content.t;
  users : list string;
  sender : string;
  time : Z;
  createdAt : Z;
  updatedAt : Z
}.

Global Instance eq_dec : EqDecision t.
Proof. solve_decision. Defined.
End Msg.

(** What the caller passes to [Message.create]. *)
Record MessageDoc : Type := mkDoc {
  doc_message : Content.t;
  doc_users : list string;
  doc_sender : string
}.

(** The file object multer leaves in [req.file]. *)
Record File : Type := mkFile { filename : string }.

(** The server state: the collection and the files on disk. *)
Record State : Type := mkState {
  Messages : list Msg.t;
  files : gset string
}.

Definition init : State := {| Messages := []; files := ∅ |}.

(** ** The Mongoose operations the code calls *)

(** The document that [Message.create(doc)] stores when [doc.sender] casts
    to [sender]: [time] is the reading of the clock when the document is
    built, [createdAt] and [updatedAt] the reading when it is saved. *)
Definition new_document (oid sender : string) (built saved : Z)
    (d : MessageDoc) : Msg.t :=
  {| Msg._id := oid;
     Msg.message := doc_message d;
     Msg.users := doc_users d;
     Msg.sender := sender;
     Msg.time := built;
     Msg.createdAt := saved;
     Msg.updatedAt := saved |}.

(** [Message.create(doc)]: [sender] is [required] and of type [ObjectId];
    without it, or when it does not cast, validation fails and nothing is
    stored. Otherwise the document is appended to the collection. *)
Definition Message_create (castObjectId : string → option string)
    (oid : string) (built saved : Z) (d : MessageDoc) (st : State)
    : Answer Msg.t * State :=
  if falsy (doc_sender d) then (Throws "ValidationError", st)
  else
    match castObjectId (doc_sender d) with
    | None => (Throws "ValidationError", st)
    | Some sender =>
        let m := new_document oid sender built saved d in
        (Returns m, {| Messages := Messages st ++ [m]; files := files st |})
    end.

(** [.sort({ updatedAt: 1 })] *)
Definition by_updatedAt_asc : relation Msg.t :=
  λ m1 m2, Msg.updatedAt m1 ≤ Msg.updatedAt m2.

(** [{ $sort: { time: -1 } }] *)
Definition by_time_desc : relation Msg.t :=
  λ m1 m2, Msg.time m2 ≤ Msg.time m1.

Global Instance by_updatedAt_asc_dec : RelDecision by_updatedAt_asc.
Proof. intros m1 m2. unfold by_updatedAt_asc. apply _. Defined.

Global Instance by_time_desc_dec : RelDecision by_time_desc.
Proof. intros m1 m2. unfold by_time_desc. apply _. Defined.

(** [{ users: { $all: [a, b] } }] *)
Definition users_all (a b : string) (m : Msg.t) : Prop :=
  a ∈ Msg.users m ∧ b ∈ Msg.users m.

Global Instance users_all_dec a b m : Decision (users_all a b m).
Proof. unfold users_all. apply _. Defined.

(** [{ users: { $in: [a] } }] *)
Definition users_in (a : string) (m : Msg.t) : Prop := a ∈ Msg.users m.

Global Instance users_in_dec a m : Decision (users_in a m).
Proof. unfold users_in. apply _. Defined.

(** What MongoDB promises of
    [Message.find({ users: { $all: [a, b] } }).sort({ updatedAt: 1 })]: the
    matching documents, each once, in an order in which [updatedAt] does not
    decrease. *)
Definition find_sorted_result (a b : string) (db ms : list Msg.t) : Prop :=
  ms ≡ₚ filter (users_all a b) db ∧ StronglySorted by_updatedAt_asc ms.

(** One such order, with which the functions below compute. *)
Definition Message_find_sorted (a b : string) (db : list Msg.t) : list Msg.t :=
  merge_sort by_updatedAt_asc (filter (users_all a b) db).

(** The first document with the [_id]. *)
Definition find_id (id : string) (db : list Msg.t) : option Msg.t :=
  snd <$> list_find (λ m, Msg._id m = id) db.

(** The collection without the first document with the [_id]. *)
Fixpoint delete_id (id : string) (db : list Msg.t) : list Msg.t :=
  match db with
  | [] => []
  | m :: db' =>
      if decide (Msg._id m = id) then db'
      else m :: delete_id id db'
  end.

(** [Message.findById(id)]: the string is cast to an [ObjectId] first. *)
Definition Message_findById (castObjectId : string → option string)
    (id : string) (db : list Msg.t) : Answer (option Msg.t) :=
  match castObjectId id with
  | None => Throws "CastError"
  | Some oid => Returns (find_id oid db)
  end.

(** [Message.findByIdAndDelete(id)] *)
Definition Message_findByIdAndDelete (castObjectId : string → option string)
    (id : string) (db : list Msg.t) : Answer (list Msg.t) :=
  match castObjectId id with
  | None => Throws "CastError"
  | Some oid => Returns (delete_id oid db)
  end.

(** ** The conversation pipeline ([Message.aggregate]) *)

(** A value of an aggregation expression, of the kinds this collection
    gives: a string, an [ObjectId], an array of strings. *)
Inductive Value : Type :=
  | VString (s : string)
  | VObjectId (digits : string)
  | VArray (elements : list string).

Global Instance Value_eq_dec : EqDecision Value.
Proof. solve_decision. Defined.

Module Summary.
(** One output document of the [$group] stage. A missing or [null]
    [lastMessage] is [None]. *)
Record t : Type := mk {
  _id : Value;
  lastMessage : option string;
  lastMessageTime : Z;
  messageCount : nat
}.

Global Instance eq_dec : EqDecision t.
Proof. solve_decision. Defined.
End Summary.

(** The two literals of the [lastMessage] expression. *)
Record Glyphs : Type := mkGlyphs {
  imageLabel : string;   (* the image branch *)
  mixedSuffix : string   (* the second operand of [$concat] *)
}.

(** The literals as the service file holds them: the camera emoji U+1F4F7,
    four bytes in UTF-8. *)
Definition service_glyphs : Glyphs :=
  {| imageLabel := "📷 Image"; mixedSuffix := " 📷" |}.

(** The literals as the controller file holds them: in place of the emoji,
    the nine bytes that are the UTF-8 encoding of its four bytes read as
    Windows-1252. *)
Definition controller_glyphs : Glyphs :=
  {| imageLabel := "ðŸ“· Image"; mixedSuffix := " ðŸ“·" |}.

(** The field path ["$users.<field>"]: on an array, a path collects the
    field from the elements that are documents. The elements of [users] are
    strings, and a string has no field. *)
Definition users_field (field : string) (m : Msg.t) : Value :=
  VArray (omap (λ _ : string, None) (Msg.users m)).

(** The [_id] expression of [$group]:
    [$cond: [ { $eq: ["$users.0", userId] }, "$users.1", "$users.0" ]]. *)
Definition group_id (userId : string) (m : Msg.t) : Value :=
  if decide (users_field "0" m = VString userId)
  then users_field "1" m
  else users_field "0" m.

(** The expression under [lastMessage: { $first: ... }]; [$concat] of a
    missing operand is [null]. *)
Definition lastMessage_expr (g : Glyphs) (m : Msg.t) : option string :=
  match Content.type (Msg.message m) with
  | Text => Content.text (Msg.message m)
  | Image => Some (imageLabel g)
  | Mixed => (λ t, t +:+ mixedSuffix g) <$> Content.text (Msg.message m)
  end.

(** [$group]: one group per distinct value of the key, holding the incoming
    documents with that key in their incoming order. *)
Definition group_stage (key : Msg.t → Value) (docs : list Msg.t)
    : list (Value * list Msg.t) :=
  (λ k, (k, filter (λ m, key m = k) docs)) <$> remove_dups (key <$> docs).

(** The accumulators of a group: [$first] reads its first document,
    [$sum: 1] counts its documents. *)
Definition accumulate (g : Glyphs) (grp : Value * list Msg.t)
    : option Summary.t :=
  match grp.2 with
  | [] => None
  | first :: _ =>
      Some {| Summary._id := grp.1;
              Summary.lastMessage := lastMessage_expr g first;
              Summary.lastMessageTime := Msg.time first;
              Summary.messageCount := length grp.2 |}
  end.

(** The first two stages, [$match] and [$sort]. *)
Definition match_sort_stages (userId : string) (db : list Msg.t) : list Msg.t :=
  merge_sort by_time_desc (filter (users_in userId) db).

(** The documents that [$group] collects under the key [k]. *)
Definition group_of (userId : string) (db : list Msg.t) (k : Value)
    : list Msg.t :=
  filter (λ m, group_id userId m = k) (match_sort_stages userId db).

(** [Message.aggregate([ $match, $sort, $group ])]. *)
Definition Message_aggregate (g : Glyphs) (userId : string) (db : list Msg.t)
    : list Summary.t :=
  omap (accumulate g)
    (group_stage (group_id userId) (match_sort_stages userId db)).

(** ** Results *)

(** A service result [{ success, statusCode, ... }] or what a handler of the
    controller does with a request: answer it ([res.status(c).json(...)],
    status 200 when [res.json] is called alone) or pass an exception on
    ([next(ex)]). *)
Inductive Result (A : Type) : Type :=
  | Success (statusCode : nat) (payload : A)
  | Failure (statusCode : nat) (error : string)
  | Raised (name : string).
Arguments Success {A} statusCode payload.
Arguments Failure {A} statusCode error.
Arguments Raised {A} name.

Module View.
(** An element of [projectedMessages]. *)
Record t : Type := mk {
  fromSelf : bool;
  message : Content.t;
  time : Z;
  _id : string
}.

Global Instance eq_dec : EqDecision t.
Proof. solve_decision. Defined.
End View.

(** The callback of [messages.map]. *)
Definition project (currentUserId : string) (msg : Msg.t) : View.t :=
  {| View.fromSelf := bool_decide (Msg.sender msg = currentUserId);
     View.message := Msg.message msg;
     View.time := Msg.time msg;
     View._id := Msg._id msg |}.

(** The histories of [currentUserId] with [otherUserId] that the store
    allows: the projections of a result of the sorted query. *)
Definition history_result (currentUserId otherUserId : string) (st : State)
    (vs : list View.t) : Prop :=
  ∃ ms, find_sorted_result currentUserId otherUserId (Messages st) ms ∧
        vs = project currentUserId <$> ms.

(** "Determine message type and content", the same chain in both files. *)
Definition messageContent (text : option string) (imageFile : option File)
    : Content.t :=
  match imageFile with
  | Some f =>
      if negb (falsy_opt text)
      then {| Content.text := text;
              Content.image := Some ("/uploads/" +:+ filename f);
              Content.type := Mixed |}
      else {| Content.text := None;
              Content.image := Some ("/uploads/" +:+ filename f);
              Content.type := Image |}
  | None =>
      {| Content.text := text; Content.image := None; Content.type := Text |}
  end.

(** "Delete associated image file if exists": [existsSync] guards
    [unlinkSync], so a file that is not there is skipped. *)
Definition unlink_image (c : Content.t) (fs : gset string) : gset string :=
  match Content.image c with
  | Some imagePath =>
      if falsy imagePath then fs
      else if decide (imagePath ∈ fs) then fs ∖ {[imagePath]} else fs
  | None => fs
  end.

(** [!imageFile] *)
Definition no_file (imageFile : option File) : bool :=
  match imageFile with
  | None => true
  | Some _ => false
  end.

(** The payload [{ messages, count }]. *)
Record MessageList : Type := mkMessageList {
  messages : list View.t;
  count : nat
}.

(** The payload [{ conversations, count }]. *)
Record ConversationList : Type := mkConversationList {
  conversations : list Summary.t;
  conversation_count : nat
}.

(** ** [MessageService] ([server/services/messageService.js]) *)

Module MessageService.

Definition createMessage (castObjectId : string → option string)
    (oid : string) (built saved : Z)
    (senderId to : string) (text : option string) (imageFile : option File)
    (st : State) : Result Msg.t * State :=
  if falsy senderId || falsy to then
    (Failure 400 "Sender and recipient IDs are required", st)
  else if falsy_opt text && no_file imageFile then
    (Failure 400 "Message text or image is required", st)
  else
    match
      Message_create castObjectId oid built saved
        {| doc_message := messageContent text imageFile;
           doc_users := [senderId; to];
           doc_sender := senderId |} st
    with
    | (Returns newMessage, st') => (Success 201 newMessage, st')
    | (Throws _, st') => (Failure 500 "Failed to create message", st')
    end.

Definition getMessages (currentUserId otherUserId : string) (st : State)
    : Result MessageList * State :=
  if falsy currentUserId || falsy otherUserId then
    (Failure 400 "Both user IDs are required", st)
  else
    let messages := Message_find_sorted currentUserId otherUserId (Messages st) in
    let projectedMessages := project currentUserId <$> messages in
    (Success 200 {| messages := projectedMessages;
                    count := length projectedMessages |}, st).

Definition deleteMessage (castObjectId : string → option string)
    (messageId userId : string) (st : State) : Result string * State :=
  if falsy messageId || falsy userId then
    (Failure 400 "Message ID and user ID are required", st)
  else
    match Message_findById castObjectId messageId (Messages st) with
    | Throws _ => (Failure 500 "Failed to delete message", st)
    | Returns None => (Failure 404 "Message not found", st)
    | Returns (Some message) =>
        if negb (bool_decide (Msg.sender message = userId)) then
          (Failure 403 "You can only delete your own messages", st)
        else
          let files' := unlink_image (Msg.message message) (files st) in
          match Message_findByIdAndDelete castObjectId messageId (Messages st) with
          | Throws _ =>
              (Failure 500 "Failed to delete message",
               {| Messages := Messages st; files := files' |})
          | Returns db =>
              (Success 200 "Message deleted successfully",
               {| Messages := db; files := files' |})
          end
    end.

Definition getConversations (userId : string) (st : State)
    : Result ConversationList * State :=
  if falsy userId then
    (Failure 400 "User ID is required", st)
  else
    let conversations := Message_aggregate service_glyphs userId (Messages st) in
    (Success 200 {| conversations := conversations;
                    conversation_count := length conversations |}, st).

End MessageService.

(** ** [messageController] ([server/controllers/messageController.js]) *)

(** What the bearer token of the request amounts to: none, one that
    [jwt.verify] rejects with a [JsonWebTokenError], or a verified one whose
    payload carries [userId]. *)
Inductive Auth : Type :=
  | NoToken
  | InvalidToken
  | Verified (userId : string).

Module Sent.
(** The [message] object of the [addMessage] response. *)
Record t : Type := mk {
  _id : string;
  message : Content.t;
  sender : string;
  time : Z
}.
End Sent.

Module MessageController.

(** The prologue of every handler. *)
Definition authenticate {A} (auth : Auth) (st : State)
    (handler : string → Result A * State) : Result A * State :=
  match auth with
  | NoToken => (Failure 401 "Access token required", st)
  | InvalidToken => (Failure 401 "Invalid token", st)
  | Verified userId => handler userId
  end.

(** The [catch] of every handler, on an exception of that name. *)
Definition catch {A} (name : string) : Result A :=
  if decide (name = "JsonWebTokenError") then Failure 401 "Invalid token"
  else Raised name.

Definition addMessage (castObjectId : string → option string)
    (oid : string) (built saved : Z) (auth : Auth)
    (to : string) (message : option string) (imageFile : option File)
    (st : State) : Result Sent.t * State :=
  authenticate auth st (λ senderId,
    if falsy to then
      (Failure 400 "Recipient ID is required", st)
    else if falsy_opt message && no_file imageFile then
      (Failure 400 "Message text or image is required", st)
    else
      let messageData :=
        {| doc_message := messageContent message imageFile;
           doc_users := [senderId; to];
           doc_sender := senderId |} in
      match Message_create castObjectId oid built saved messageData st with
      | (Returns newMessage, st') =>
          (Success 200 {| Sent._id := Msg._id newMessage;
                          Sent.message := Msg.message newMessage;
                          Sent.sender := Msg.sender newMessage;
                          Sent.time := Msg.time newMessage |}, st')
      | (Throws name, st') => (catch name, st')
      end).

Definition getMessages (auth : Auth) (from : string) (st : State)
    : Result MessageList * State :=
  authenticate auth st (λ currentUserId,
    if falsy from then
      (Failure 400 "Recipient ID is required", st)
    else
      let messages := Message_find_sorted currentUserId from (Messages st) in
      let projectedMessages := project currentUserId <$> messages in
      (Success 200 {| messages := projectedMessages;
                      count := length projectedMessages |}, st)).

Definition deleteMessage (castObjectId : string → option string)
    (auth : Auth) (messageId : string) (st : State)
    : Result string * State :=
  authenticate auth st (λ currentUserId,
    match Message_findById castObjectId messageId (Messages st) with
    | Throws name => (catch name, st)
    | Returns None => (Failure 404 "Message not found", st)
    | Returns (Some message) =>
        if negb (bool_decide (Msg.sender message = currentUserId)) then
          (Failure 403 "You can only delete your own messages", st)
        else
          let files' := unlink_image (Msg.message message) (files st) in
          match Message_findByIdAndDelete castObjectId messageId (Messages st) with
          | Throws name =>
              (catch name, {| Messages := Messages st; files := files' |})
          | Returns db =>
              (Success 200 "Message deleted successfully",
               {| Messages := db; files := files' |})
          end
    end).

Definition getConversations (auth : Auth) (st : State)
    : Result ConversationList * State :=
  authenticate auth st (λ currentUserId,
    let conversations :=
      Message_aggregate controller_glyphs currentUserId (Messages st) in
    (Success 200 {| conversations := conversations;
                    conversation_count := length conversations |}, st)).

End MessageController.

(** ** The server as a transition system *)

(** The requests that reach the message code, with what the environment
    contributes to each ([oid] and the two clock readings on an insert), and
    the upload of a file by multer. *)
Inductive Call : Type :=
  | Upload (f : File)
  | ServiceCreate (oid : string) (built saved : Z) (senderId to : string)
      (text : option string) (imageFile : option File)
  | ServiceGetMessages (currentUserId otherUserId : string)
  | ServiceDelete (messageId userId : string)
  | ServiceConversations (userId : string)
  | ControllerAdd (oid : string) (built saved : Z) (auth : Auth) (to : string)
      (message : option string) (imageFile : option File)
  | ControllerGetMessages (auth : Auth) (from : string)
  | ControllerDelete (auth : Auth) (messageId : string)
  | ControllerConversations (auth : Auth).

Definition run (castObjectId : string → option string) (c : Call) (st : State)
    : State :=
  match c with
  | Upload f =>
      {| Messages := Messages st;
         files := {[ "/uploads/" +:+ filename f ]} ∪ files st |}
  | ServiceCreate oid built saved senderId to text imageFile =>
      (MessageService.createMessage castObjectId oid built saved senderId to
         text imageFile st).2
  | ServiceGetMessages a b => (MessageService.getMessages a b st).2
  | ServiceDelete messageId userId =>
      (MessageService.deleteMessage castObjectId messageId userId st).2
  | ServiceConversations userId => (MessageService.getConversations userId st).2
  | ControllerAdd oid built saved auth to message imageFile =>
      (MessageController.addMessage castObjectId oid built saved auth to
         message imageFile st).2
  | ControllerGetMessages auth from =>
      (MessageController.getMessages auth from st).2
  | ControllerDelete auth messageId =>
      (MessageController.deleteMessage castObjectId auth messageId st).2
  | ControllerConversations auth =>
      (MessageController.getConversations auth st).2
  end.

Definition ids (st : State) : list string := Msg._id <$> Messages st.

(** A token that verifies was signed by [AuthService.generateToken] over the
    [_id] of a user, which is not empty. *)
Definition token_ok (auth : Auth) : Prop :=
  match auth with
  | Verified userId => userId ≠ ""
  | _ => True
  end.

(** What the environment guarantees of a call: MongoDB never hands out an
    [_id] that the collection already holds, and the tokens are as above. *)
Definition allowed (c : Call) (st : State) : Prop :=
  match c with
  | ServiceCreate oid _ _ _ _ _ _ => oid ∉ ids st
  | ControllerAdd oid _ _ auth _ _ _ => (oid ∉ ids st) ∧ token_ok auth
  | ControllerGetMessages auth _ | ControllerDelete auth _
  | ControllerConversations auth => token_ok auth
  | _ => True
  end.

Inductive reachable (castObjectId : string → option string) : State → Prop :=
  | reachable_init : reachable castObjectId init
  | reachable_run st c :
      reachable castObjectId st → allowed c st →
      reachable castObjectId (run castObjectId c st).

(** ** What holds of every stored message *)

(** The tag agrees with the fields that are populated. *)
Definition content_ok (c : Content.t) : Prop :=
  match Content.type c with
  | Text =>
      (∃ body, Content.text c = Some body ∧ body ≠ "") ∧
      Content.image c = None
  | Image =>
      Content.text c = None ∧
      ∃ p, Content.image c = Some p ∧ p ≠ ""
  | Mixed =>
      (∃ body, Content.text c = Some body ∧ body ≠ "") ∧
      ∃ p, Content.image c = Some p ∧ p ≠ ""
  end.

Record message_ok (castObjectId : string → option string) (m : Msg.t)
    : Prop := {
  users_ok :
    ∃ senderId to,
      Msg.users m = [senderId; to] ∧ castObjectId senderId = Some (Msg.sender m);
  users_not_empty : ∀ u, u ∈ Msg.users m → u ≠ "";
  stamps_ok : Msg.updatedAt m = Msg.createdAt m;
  message_content_ok : content_ok (Msg.message m)
}.

Definition inv (castObjectId : string → option string) (st : State) : Prop :=
  NoDup (ids st) ∧ Forall (message_ok castObjectId) (Messages st).

(** The summaries of a response, none when it is not a success. *)
Definition summaries (r : Result ConversationList) : list Summary.t :=
  match r with
  | Success _ p => conversations p
  | _ => []
  end.

(** The records of a history response, none when it is not a success. *)
Definition records (r : Result MessageList) : list View.t :=
  match r with
  | Success _ p => messages p
  | _ => []
  end.

(** ** Runs *)

Fixpoint run_all (castObjectId : string → option string) (cs : list Call)
    (st : State) : State :=
  match cs with
  | [] => st
  | c :: cs' => run_all castObjectId cs' (run castObjectId c st)
  end.

Fixpoint allowed_all (castObjectId : string → option string) (cs : list Call)
    (st : State) : Prop :=
  match cs with
  | [] => True
  | c :: cs' =>
      allowed c st ∧ allowed_all castObjectId cs' (run castObjectId c st)
  end.

Global Instance token_ok_dec auth : Decision (token_ok auth).
Proof. destruct auth; simpl; apply _. Defined.

Global Instance allowed_dec c st : Decision (allowed c st).
Proof. destruct c; simpl; apply _. Defined.

Global Instance allowed_all_dec castObjectId cs st :
  Decision (allowed_all castObjectId cs st).
Proof. revert st. induction cs as [|c cs IH]; intros st; simpl; apply _. Defined.

(** The ids of the examples. *)
Definition id_u1 : string := "64a000000000000000000001".
Definition id_u2 : string := "64a000000000000000000002".
Definition id_A : string := "64a00000000000000000000a".
Definition id_B : string := "64a00000000000000000000b".
Definition id_C : string := "64a00000000000000000000c".
Definition id_m1 : string := "64b000000000000000000001".
Definition id_m2 : string := "64b000000000000000000002".
Definition id_m3 : string := "64b000000000000000000003".
Definition id_m4 : string := "64b000000000000000000004".

(** The scenario of two users: a text from u1 to u2 through the service,
    then an uploaded image from u2 to u1 through the controller. Each
    document is saved a millisecond after it is built. *)
Definition two_users : State :=
  run_all hex24
    [ ServiceCreate id_m1 10 11 id_u1 id_u2 (Some "hi") None;
      Upload (mkFile "img1.png");
      ControllerAdd id_m2 20 21 (Verified id_u2) id_u1 None
        (Some (mkFile "img1.png")) ]
    init.

(** Viewer A after three messages with peer B and one with peer C. *)
Definition three_and_one : State :=
  run_all hex24
    [ ServiceCreate id_m1 10 10 id_A id_B (Some "one") None;
      ServiceCreate id_m2 20 20 id_B id_A (Some "two") None;
      Upload (mkFile "c.png");
      ServiceCreate id_m3 25 25 id_C id_A (Some "see") (Some (mkFile "c.png"));
      ServiceCreate id_m4 30 30 id_A id_B (Some "three") None ]
    init.

(** Two texts from u1 to u2 that are saved in the same millisecond. *)
Definition same_millisecond : State :=
  run_all hex24
    [ ServiceCreate id_m1 10 12 id_u1 id_u2 (Some "first") None;
      ServiceCreate id_m2 11 12 id_u1 id_u2 (Some "second") None ]
    init.

(** * The rest of the server *)

(** ** Middleware ([server/middleware/authMiddleware.js]) *)

(** What a middleware does with a request: hand it on ([next()]) or answer
    it ([res.status(c).json({ status: false, msg })]). *)
Inductive Middleware : Type :=
  | Next
  | Respond (status : nat) (msg : string).

Global Instance Middleware_eq_dec : EqDecision Middleware.
Proof. solve_decision. Defined.

Module RateLimiter.

(** The object the limiter keeps for an address. *)
Record Entry : Type := mkEntry {
  count : nat;
  resetTime : Z
}.

Global Instance Entry_eq_dec : EqDecision Entry.
Proof. solve_decision. Defined.

(** The closure [rateLimiter(maxRequests, windowMs)] applied to a request
    from [ip] at the clock reading [now]; [requests] is the [Map] of the
    closure. *)
Definition rateLimiter (maxRequests : nat) (windowMs : Z) (ip : string)
    (now : Z) (requests : gmap string Entry) : Middleware * gmap string Entry :=
  match requests !! ip with
  | None =>
      (Next, <[ip := {| count := 1; resetTime := now + windowMs |}]> requests)
  | Some userRequests =>
      let userRequests' :=
        if decide (resetTime userRequests < now)
        then {| count := 1; resetTime := now + windowMs |}
        else {| count := S (count userRequests);
                resetTime := resetTime userRequests |} in
      let requests' := <[ip := userRequests']> requests in
      if decide (maxRequests < count userRequests')%nat
      then (Respond 429 "Too many requests, please try again later", requests')
      else (Next, requests')
  end.

(** The limiter over the requests of one address at the given times, in
    order. *)
Fixpoint serve (maxRequests : nat) (windowMs : Z) (ip : string)
    (times : list Z) (requests : gmap string Entry)
    : list Middleware * gmap string Entry :=
  match times with
  | [] => ([], requests)
  | now :: times' =>
      let '(answer, requests') :=
        rateLimiter maxRequests windowMs ip now requests in
      let '(answers, requests'') :=
        serve maxRequests windowMs ip times' requests' in
      (answer :: answers, requests'')
  end.

End RateLimiter.

(** The answer to a request that brings the count of its address to [n]. *)
Definition limiter_answer (maxRequests n : nat) : Middleware :=
  if decide (maxRequests < n)%nat
  then Respond 429 "Too many requests, please try again later"
  else Next.

(** ** The socket handlers ([server/index.js]) *)

Module Socket.

(** What reaches the handlers: [add-user] and [send-msg], each on the socket
    that received it. *)
Inductive Event (A : Type) : Type :=
  | AddUser (socketId userId : string)
  | SendMsg (socketId to : string) (msg : A).
Arguments AddUser {A} socketId userId.
Arguments SendMsg {A} socketId to msg.

(** [socket.to(room).emit("msg-recieve", msg)] on the socket [from]. *)
Record Emit (A : Type) : Type := mkEmit {
  from : string;
  room : string;
  emitted : A
}.
Arguments mkEmit {A} from room emitted.
Arguments from {A} e.
Arguments room {A} e.
Arguments emitted {A} e.

(** One event against [global.onlineUsers]: what is emitted, if anything,
    and the map afterwards. *)
Definition handle {A} (e : Event A) (onlineUsers : gmap string string)
    : option (Emit A) * gmap string string :=
  match e with
  | AddUser socketId userId => (None, <[userId := socketId]> onlineUsers)
  | SendMsg socketId to msg =>
      match onlineUsers !! to with
      | Some sendUserSocket =>
          if falsy sendUserSocket then (None, onlineUsers)
          else (Some (mkEmit socketId sendUserSocket msg), onlineUsers)
      | None => (None, onlineUsers)
      end
  end.

(** The map after a run of events, starting from [onlineUsers]. *)
Definition handle_all {A} (es : list (Event A))
    (onlineUsers : gmap string string) : gmap string string :=
  foldl (λ users e, (handle e users).2) onlineUsers es.

(** The socket of the last [add-user] of a user in a run, if there is one. *)
Fixpoint last_added {A} (userId : string) (es : list (Event A))
    : option string :=
  match es with
  | [] => None
  | e :: es' =>
      match last_added userId es' with
      | Some socketId => Some socketId
      | None =>
          match e with
          | AddUser socketId userId' =>
              if decide (userId' = userId) then Some socketId else None
          | SendMsg _ _ _ => None
          end
      end
  end.

End Socket.

(** ** [MessageService.getMessageStats] *)

Module Stats.
(** The document of the [$group] stage with [_id: null], without its [_id]. *)
Record t : Type := mk {
  totalMessages : nat;
  sentMessages : nat;
  receivedMessages : nat;
  imageMessages : nat
}.

Global Instance eq_dec : EqDecision t.
Proof. solve_decision. Defined.
End Stats.

(** [{ $sum: { $cond: [c, 1, 0] } }] over the documents of the group. *)
Definition sum_cond (c : Msg.t → Prop) `{!∀ m, Decision (c m)}
    (docs : list Msg.t) : nat :=
  sum_list ((λ m, if decide (c m) then 1%nat else 0%nat) <$> docs).

(** The pipeline of [getMessageStats]: [$match], then one group for all the
    matched documents; a [$group] with nothing to group gives no document.
    ["$sender"] is the stored [ObjectId] and [userId] the string of the
    caller, and [$eq] and [$ne] compare them as the values they are. *)
Definition Message_aggregate_stats (userId : string) (db : list Msg.t)
    : list Stats.t :=
  match filter (users_in userId) db with
  | [] => []
  | docs =>
      [ {| Stats.totalMessages := sum_cond (λ _, True) docs;
           Stats.sentMessages :=
             sum_cond (λ m, VObjectId (Msg.sender m) = VString userId) docs;
           Stats.receivedMessages :=
             sum_cond (λ m, VObjectId (Msg.sender m) ≠ VString userId) docs;
           Stats.imageMessages :=
             sum_cond (λ m, Content.type (Msg.message m) ∈ [Image; Mixed]) docs |} ]
  end.

(** [stats[0] || { totalMessages: 0, ... }] *)
Definition no_stats : Stats.t :=
  {| Stats.totalMessages := 0; Stats.sentMessages := 0;
     Stats.receivedMessages := 0; Stats.imageMessages := 0 |}.

Definition getMessageStats (userId : string) (st : State)
    : Result Stats.t * State :=
  if falsy userId then
    (Failure 400 "User ID is required", st)
  else
    let stats := Message_aggregate_stats userId (Messages st) in
    (Success 200 (default no_stats (head stats)), st).

(** The statistics a user is shown, the zeros when the call fails. *)
Definition stats_of (userId : string) (st : State) : Stats.t :=
  match (getMessageStats userId st).1 with
  | Success _ stats => stats
  | _ => no_stats
  end.

(** ** Strings *)

(** [s.startsWith(p)] *)
Fixpoint starts_with (p s : string) : bool :=
  match p with
  | EmptyString => true
  | String a p' =>
      match s with
      | EmptyString => false
      | String b s' => if decide (a = b) then starts_with p' s' else false
      end
  end.

Fixpoint drop_chars (n : nat) (s : string) : string :=
  match n, s with
  | O, _ => s
  | S _, EmptyString => EmptyString
  | S n', String _ s' => drop_chars n' s'
  end.

(** [s.replace(p, '')] with a string for pattern: the first occurrence of
    [p] in [s] goes, and [s] comes back as it is when there is none. *)
Fixpoint remove_first (p s : string) : string :=
  if starts_with p s then drop_chars (String.length p) s
  else
    match s with
    | EmptyString => EmptyString
    | String c s' => String c (remove_first p s')
    end.

(** [l.join(sep)] *)
Fixpoint join (sep : string) (l : list string) : string :=
  match l with
  | [] => ""
  | [x] => x
  | x :: l' => x +:+ sep +:+ join sep l'
  end.

(** ** Tokens ([AuthService] and the prologue of the message handlers) *)

(** An exception as the handlers look at it: its [name], its [message] and
    its [code] if it has one. *)
Module Thrown.
Record t : Type := mk {
  name : string;
  message : string;
  code : option Z
}.
End Thrown.

(** What [jwt.verify(token, JWT_SECRET)] does: return the payload, of which
    the code reads [userId], or throw. *)
Inductive JwtResult : Type :=
  | Decoded (userId : string)
  | JwtThrows (e : Thrown.t).

(** The libraries the services call: [bcrypt.hash] with the salt it draws,
    [bcrypt.compare], [jwt.sign] over [{ userId }] and [jwt.verify]. *)
Module Libs.
Record t : Type := mk {
  hash : string → string → string;
  compare : string → string → bool;
  sign : string → string;
  verify : string → JwtResult
}.
End Libs.

(** [errorHandler] *)
Definition errorHandler (error : Thrown.t) : Middleware :=
  if decide (Thrown.name error = "ValidationError")
  then Respond 400 "Validation error"
  else if decide (Thrown.name error = "CastError")
  then Respond 400 "Invalid ID format"
  else if decide (Thrown.code error = Some 11000)
  then Respond 400 "Duplicate field value"
  else Respond 500 "Internal server error".

(** The first lines of every handler of the message controller, with the
    [catch] of the handler: the token is the [authorization] header without
    its first ["Bearer "]; a [JsonWebTokenError] is answered on the spot, any
    other exception of [jwt.verify] goes to [next(ex)]. *)
Definition request_auth (libs : Libs.t) (authorization : option string)
    : Auth + Thrown.t :=
  match remove_first "Bearer " <$> authorization with
  | None => inl NoToken
  | Some token =>
      if falsy token then inl NoToken
      else
        match Libs.verify libs token with
        | Decoded userId => inl (Verified userId)
        | JwtThrows ex =>
            if decide (Thrown.name ex = "JsonWebTokenError")
            then inl InvalidToken
            else inr ex
        end
  end.

(** [validateRequest(requiredFields)] on a body whose fields are strings. *)
Definition validateRequest (requiredFields : list string)
    (body : gmap string string) : Middleware :=
  let missingFields :=
    filter (λ field, falsy_opt (body !! field) = true) requiredFields in
  if decide (0 < length missingFields)%nat
  then Respond 400 ("Missing required fields: " +:+ join ", " missingFields)
  else Next.

(** ** Users *)

Module User.
(** A document of the users collection, with the fields the services read
    and write. [server/models/userModel.js] is not among the sources. *)
Record t : Type := mk {
  _id : string;
  username : string;
  email : string;
  password : string;
  avatarImage : string;
  isAvatarImageSet : bool
}.

Global Instance eq_dec : EqDecision t.
Proof. solve_decision. Defined.
End User.

Module UserView.
(** [userResponse], and a user document under
    [select(["username", "email", "avatarImage", "isAvatarImageSet", "_id"])]. *)
Record t : Type := mk {
  _id : string;
  username : string;
  email : string;
  avatarImage : string;
  isAvatarImageSet : bool
}.

Global Instance eq_dec : EqDecision t.
Proof. solve_decision. Defined.
End UserView.

Module Contact.
(** A user document under
    [select(["username", "avatarImage", "_id", "isAvatarImageSet"])]. *)
Record t : Type := mk {
  username : string;
  avatarImage : string;
  _id : string;
  isAvatarImageSet : bool
}.

Global Instance eq_dec : EqDecision t.
Proof. solve_decision. Defined.
End Contact.

Definition userResponse (user : User.t) : UserView.t :=
  {| UserView._id := User._id user;
     UserView.username := User.username user;
     UserView.email := User.email user;
     UserView.avatarImage := User.avatarImage user;
     UserView.isAvatarImageSet := User.isAvatarImageSet user |}.

Definition contact (user : User.t) : Contact.t :=
  {| Contact.username := User.username user;
     Contact.avatarImage := User.avatarImage user;
     Contact._id := User._id user;
     Contact.isAvatarImageSet := User.isAvatarImageSet user |}.

(** [User.findOne(q)]: the first document that matches. *)
Definition User_findOne (q : User.t → Prop) `{!∀ u, Decision (q u)}
    (users : list User.t) : option User.t :=
  snd <$> list_find q users.

(** [User.findById(id)] for an [id] that is the digits of an [ObjectId], as
    the [_id] of [req.user] and the [userId] of a token are. The cast of
    another string fails; that is written out in [getAllUsers]. *)
Definition User_findById (id : string) (users : list User.t) : option User.t :=
  User_findOne (λ u, User._id u = id) users.

(** [User.findByIdAndUpdate(id, update)]: the first document with that id is
    updated in place. *)
Fixpoint User_findByIdAndUpdate (id : string) (update : User.t → User.t)
    (users : list User.t) : list User.t :=
  match users with
  | [] => []
  | u :: users' =>
      if decide (User._id u = id) then update u :: users'
      else u :: User_findByIdAndUpdate id update users'
  end.

(** [User.findByIdAndDelete(id)] *)
Fixpoint User_findByIdAndDelete (id : string) (users : list User.t)
    : list User.t :=
  match users with
  | [] => []
  | u :: users' =>
      if decide (User._id u = id) then users'
      else u :: User_findByIdAndDelete id users'
  end.

(** Modelled from the calls: what the schema of [userModel.js], which is not
    among the sources, gives the two avatar fields of a new user. *)
Record UserDefaults : Type := mkUserDefaults {
  default_avatarImage : string;
  default_isAvatarImageSet : bool
}.

(** ** [AuthService] ([server/services/authService.js]) *)

Module AuthService.

(** The result of [verifyToken]. *)
Inductive TokenResult : Type :=
  | TokenUser (userId : string)
  | TokenFailure (error code : string).

(** [verifyToken(token)]: the function throws for a falsy token itself, and
    its [catch] names every exception that is not a [JsonWebTokenError]
    [TOKEN_EXPIRED]. *)
Definition verifyToken (libs : Libs.t) (token : string) : TokenResult :=
  if falsy token then TokenFailure "No token provided" "TOKEN_EXPIRED"
  else
    match Libs.verify libs token with
    | Decoded userId => TokenUser userId
    | JwtThrows error =>
        TokenFailure (Thrown.message error)
          (if decide (Thrown.name error = "JsonWebTokenError")
           then "INVALID_TOKEN" else "TOKEN_EXPIRED")
    end.

(** [extractTokenFromHeader(headers)], on [headers.authorization]. *)
Definition extractTokenFromHeader (authorization : option string)
    : option string :=
  match authorization with
  | None => None
  | Some authHeader =>
      if falsy authHeader || negb (starts_with "Bearer " authHeader) then None
      else Some (remove_first "Bearer " authHeader)
  end.

(** The result of [authenticateUser]. *)
Inductive AuthResult : Type :=
  | Authenticated (user : UserView.t) (userId : string)
  | NotAuthenticated (statusCode : nat) (error : string) (code : option string).

Definition authenticateUser (libs : Libs.t) (authorization : option string)
    (users : list User.t) : AuthResult :=
  match extractTokenFromHeader authorization with
  | None => NotAuthenticated 401 "Access token required" None
  | Some token =>
      if falsy token then NotAuthenticated 401 "Access token required" None
      else
        match verifyToken libs token with
        | TokenFailure error code => NotAuthenticated 401 error (Some code)
        | TokenUser userId =>
            match User_findById userId users with
            | None => NotAuthenticated 404 "User not found" None
            | Some user => Authenticated (userResponse user) userId
            end
        end
  end.

(** [generateToken(userId)] *)
Definition generateToken (libs : Libs.t) (userId : string) : string :=
  Libs.sign libs userId.

End AuthService.

(** [authenticateToken]: the user it leaves in [req.user], or its answer. *)
Definition authenticateToken (libs : Libs.t) (authorization : option string)
    (users : list User.t) : UserView.t + Middleware :=
  match AuthService.authenticateUser libs authorization users with
  | AuthService.Authenticated user _ => inl user
  | AuthService.NotAuthenticated statusCode error _ =>
      inr (Respond (if decide (statusCode = 0%nat) then 401 else statusCode) error)
  end.

(** ** [UserService] ([server/services/userService.js]) *)

Module UserService.

(** [registerUser]; [oid] is the [_id] MongoDB gives the new user and [salt]
    the salt [bcrypt.hash] draws. *)
Definition registerUser (libs : Libs.t) (defaults : UserDefaults)
    (oid salt : string) (username email password : string)
    (users : list User.t) : Result (UserView.t * string) * list User.t :=
  if falsy username || falsy email || falsy password then
    (Failure 400 "Username, email, and password are required", users)
  else
    match User_findOne (λ u, User.username u = username) users with
    | Some existingUsername => (Failure 400 "Username already exists", users)
    | None =>
        match User_findOne (λ u, User.email u = email) users with
        | Some existingEmail => (Failure 400 "Email already exists", users)
        | None =>
            let hashedPassword := Libs.hash libs salt password in
            let user :=
              {| User._id := oid;
                 User.username := username;
                 User.email := email;
                 User.password := hashedPassword;
                 User.avatarImage := default_avatarImage defaults;
                 User.isAvatarImageSet := default_isAvatarImageSet defaults |} in
            let token := AuthService.generateToken libs (User._id user) in
            (Success 201 (userResponse user, token), users ++ [user])
        end
    end.

Definition loginUser (libs : Libs.t) (username password : string)
    (users : list User.t) : Result (UserView.t * string) * list User.t :=
  if falsy username || falsy password then
    (Failure 400 "Username and password are required", users)
  else
    match User_findOne (λ u, User.username u = username) users with
    | None => (Failure 401 "Invalid username or password", users)
    | Some user =>
        let isPasswordValid := Libs.compare libs password (User.password user) in
        if negb isPasswordValid then
          (Failure 401 "Invalid username or password", users)
        else
          let token := AuthService.generateToken libs (User._id user) in
          (Success 200 (userResponse user, token), users)
    end.

(** [getAllUsers]: the filter [{ _id: { $ne: currentUserId } }] casts the
    string to an [ObjectId]; when the cast fails [User.find] throws and the
    [catch] of the service answers. *)
Definition getAllUsers (castObjectId : string → option string)
    (currentUserId : string) (users : list User.t)
    : Result (list Contact.t * string) * list User.t :=
  if falsy currentUserId then
    (Failure 400 "Current user ID is required", users)
  else
    match castObjectId currentUserId with
    | None => (Failure 500 "Failed to get users", users)
    | Some oid =>
        (Success 200
           (contact <$> filter (λ u, User._id u ≠ oid) users,
            currentUserId), users)
    end.


(** [updateUserProfile]; an absent [username] or [email] is the empty
    string. *)
Definition updateUserProfile (userId username email : string)
    (users : list User.t) : Result (UserView.t * string) * list User.t :=
  if falsy userId then
    (Failure 400 "User ID is required", users)
  else if negb (falsy username) &&
          bool_decide (is_Some (User_findOne
            (λ u, User.username u = username ∧ User._id u ≠ userId) users))
  then (Failure 400 "Username already taken", users)
  else if negb (falsy email) &&
          bool_decide (is_Some (User_findOne
            (λ u, User.email u = email ∧ User._id u ≠ userId) users))
  then (Failure 400 "Email already taken", users)
  else
    let updateFields (u : User.t) : User.t :=
      {| User._id := User._id u;
         User.username := if falsy username then User.username u else username;
         User.email := if falsy email then User.email u else email;
         User.password := User.password u;
         User.avatarImage := User.avatarImage u;
         User.isAvatarImageSet := User.isAvatarImageSet u |} in
    (* [{ new: true }]: the call returns the document as it is afterwards *)
    let users' := User_findByIdAndUpdate userId updateFields users in
    match User_findById userId users' with
    | None => (Failure 404 "User not found", users')
    | Some updatedUser =>
        (Success 200 (userResponse updatedUser, "Profile updated successfully"),
         users')
    end.

Definition changePassword (libs : Libs.t) (salt : string)
    (userId currentPassword newPassword : string) (users : list User.t)
    : Result string * list User.t :=
  if falsy userId then
    (Failure 400 "User ID is required", users)
  else if falsy currentPassword || falsy newPassword then
    (Failure 400 "Current password and new password are required", users)
  else
    match User_findById userId users with
    | None => (Failure 404 "User not found", users)
    | Some user =>
        if negb (Libs.compare libs currentPassword (User.password user)) then
          (Failure 400 "Current password is incorrect", users)
        else
          let hashedNewPassword := Libs.hash libs salt newPassword in
          (Success 200 "Password changed successfully",
           User_findByIdAndUpdate userId
             (λ u, {| User._id := User._id u;
                      User.username := User.username u;
                      User.email := User.email u;
                      User.password := hashedNewPassword;
                      User.avatarImage := User.avatarImage u;
                      User.isAvatarImageSet := User.isAvatarImageSet u |})
             users)
    end.

Definition deleteAccount (libs : Libs.t) (userId password : string)
    (users : list User.t) : Result string * list User.t :=
  if falsy userId || falsy password then
    (Failure 400 "User ID and password are required", users)
  else
    match User_findById userId users with
    | None => (Failure 404 "User not found", users)
    | Some user =>
        if negb (Libs.compare libs password (User.password user)) then
          (Failure 400 "Password is incorrect", users)
        else
          (Success 200 "Account deleted successfully",
           User_findByIdAndDelete userId users)
    end.

Definition setAvatar (userId avatarImage : string) (users : list User.t)
    : Result (bool * string) * list User.t :=
  if falsy userId || falsy avatarImage then
    (Failure 400 "User ID and avatar image are required", users)
  else
    let users' :=
      User_findByIdAndUpdate userId
        (λ u, {| User._id := User._id u;
                 User.username := User.username u;
                 User.email := User.email u;
                 User.password := User.password u;
                 User.avatarImage := avatarImage;
                 User.isAvatarImageSet := true |})
        users in
    match User_findById userId users' with
    | None => (Failure 404 "User not found", users')
    | Some user =>
        (Success 200 (User.isAvatarImageSet user, User.avatarImage user), users')
    end.

End UserService.

(** ** The users as a transition system *)

(** The calls of the user service that can write, with what the environment
    contributes. *)
Inductive UserCall : Type :=
  | Register (oid salt username email password : string)
  | UpdateProfile (userId username email : string)
  | ChangePassword (salt userId currentPassword newPassword : string)
  | DeleteAccount (userId password : string)
  | SetAvatar (userId avatarImage : string).

Definition run_user (libs : Libs.t) (defaults : UserDefaults) (c : UserCall)
    (users : list User.t) : list User.t :=
  match c with
  | Register oid salt username email password =>
      (UserService.registerUser libs defaults oid salt username email password
         users).2
  | UpdateProfile userId username email =>
      (UserService.updateUserProfile userId username email users).2
  | ChangePassword salt userId currentPassword newPassword =>
      (UserService.changePassword libs salt userId currentPassword newPassword
         users).2
  | DeleteAccount userId password =>
      (UserService.deleteAccount libs userId password users).2
  | SetAvatar userId avatarImage =>
      (UserService.setAvatar userId avatarImage users).2
  end.

(** MongoDB gives a new user an [_id] no user has, and the [_id] is not
    empty. *)
Definition user_call_allowed (c : UserCall) (users : list User.t) : Prop :=
  match c with
  | Register oid _ _ _ _ => oid ≠ "" ∧ oid ∉ (User._id <$> users)
  | _ => True
  end.

Inductive reachable_users (libs : Libs.t) (defaults : UserDefaults)
    : list User.t → Prop :=
  | reachable_users_init : reachable_users libs defaults []
  | reachable_users_run users c :
      reachable_users libs defaults users →
      user_call_allowed c users →
      reachable_users libs defaults (run_user libs defaults c users).

(** No two users share an id, a name or an address. *)
Definition users_distinct (users : list User.t) : Prop :=
  NoDup (User._id <$> users) ∧
  NoDup (User.username <$> users) ∧
  NoDup (User.email <$> users).

(** A toy instance of the libraries, for the examples: the hash of a
    password is the password after a dollar, whatever the salt; a token is
    the user id after "jwt."; no token expires. *)
Definition toy_libs : Libs.t :=
  {| Libs.hash := λ salt password, "$" +:+ password;
     Libs.compare := λ password hashed,
       bool_decide (hashed = "$" +:+ password);
     Libs.sign := λ userId, "jwt." +:+ userId;
     Libs.verify := λ token,
       if starts_with "jwt." token then Decoded (drop_chars 4 token)
       else JwtThrows (Thrown.mk "JsonWebTokenError" "jwt malformed" None) |}.

Definition toy_defaults : UserDefaults :=
  {| default_avatarImage := ""; default_isAvatarImageSet := false |}.

(** A string without a space, as a JWT is. *)
Fixpoint no_space (s : string) : bool :=
  match s with
  | EmptyString => true
  | String c s' => if decide (c = " "%char) then false else no_space s'
  end.

(** ** The routes of [server/routes/auth.js] that validate a body *)

(** A field of the body as the controller hands it to the service. *)
Definition field (body : gmap string string) (key : string) : string :=
  default "" (body !! key).

(** [router.post("/register", validateRequest([...]), register)] *)
Definition register_route (libs : Libs.t) (defaults : UserDefaults)
    (oid salt : string) (body : gmap string string) (users : list User.t)
    : (Middleware + Result (UserView.t * string)) * list User.t :=
  match validateRequest ["username"; "email"; "password"] body with
  | Respond status msg => (inl (Respond status msg), users)
  | Next =>
      let '(result, users') :=
        UserService.registerUser libs defaults oid salt (field body "username")
          (field body "email") (field body "password") users in
      (inr result, users')
  end.

(** [router.post("/login", validateRequest([...]), login)] *)
Definition login_route (libs : Libs.t) (body : gmap string string)
    (users : list User.t)
    : (Middleware + Result (UserView.t * string)) * list User.t :=
  match validateRequest ["username"; "password"] body with
  | Respond status msg => (inl (Respond status msg), users)
  | Next =>
      let '(result, users') :=
        UserService.loginUser libs (field body "username")
          (field body "password") users in
      (inr result, users')
  end.

(** Every user has an id, a name and an address. *)
Definition users_named (users : list User.t) : Prop :=
  Forall (λ u, User._id u ≠ "" ∧ User.username u ≠ "" ∧ User.email u ≠ "")
    users.

(** Two users of the examples, as [registerUser] under [toy_libs] and
    [toy_defaults] leaves them. *)
Definition ann : User.t :=
  {| User._id := "u1"; User.username := "ann"; User.email := "ann@x.org";
     User.password := "$pw1"; User.avatarImage := "";
     User.isAvatarImageSet := false |}.

Definition bob : User.t :=
  {| User._id := "u2"; User.username := "bob"; User.email := "bob@x.org";
     User.password := "$pw2"; User.avatarImage := "";
     User.isAvatarImageSet := false |}.

(** * Properties *)

(** ** The two sort orders *)

Global Instance by_updatedAt_asc_total : Total by_updatedAt_asc.
Proof. intros m1 m2. unfold by_updatedAt_asc. lia. Qed.

Global Instance by_updatedAt_asc_trans : Transitive by_updatedAt_asc.
Proof. intros m1 m2 m3. unfold by_updatedAt_asc. lia. Qed.

Global Instance by_time_desc_total : Total by_time_desc.
Proof. intros m1 m2. unfold by_time_desc. lia. Qed.

Global Instance by_time_desc_trans : Transitive by_time_desc.
Proof. intros m1 m2 m3. unfold by_time_desc. lia. Qed.


(** ** Truthiness *)

Lemma falsy_true s : falsy s = true ↔ s = "".
Proof. unfold falsy. apply bool_decide_eq_true. Qed.

Lemma falsy_false s : falsy s = false ↔ s ≠ "".
Proof. unfold falsy. apply bool_decide_eq_false. Qed.

Lemma falsy_opt_true t : falsy_opt t = true ↔ t = None ∨ t = Some "".
Proof.
  destruct t as [s|]; simpl.
  - rewrite falsy_true. split; [intros ->; by right | intros [|]; congruence].
  - split; [by left | done].
Qed.

(** ** Lookup and deletion by id *)



Lemma NoDup_fmap_elem_inj {A B} (f : A → B) (l : list A) x y :
  NoDup (f <$> l) → x ∈ l → y ∈ l → f x = f y → x = y.
Proof.
  induction l as [|z l IH]; csimpl; intros Hnd Hx Hy Heq; [by inv Hx|].
  apply NoDup_cons in Hnd as [Hfresh Hnd].
  apply elem_of_cons in Hx as [->|Hx], Hy as [->|Hy]; [done|..|by apply IH].
  - destruct Hfresh. apply list_elem_of_fmap. by exists y.
  - destruct Hfresh. apply list_elem_of_fmap. by exists x.
Qed.



Lemma delete_id_sublist id db : delete_id id db `sublist_of` db.
Proof.
  induction db as [|m db IH]; simpl; [done|].
  destruct (decide (Msg._id m = id)); [by apply sublist_cons | by apply sublist_skip].
Qed.


(** ** Reads leave the state alone *)

Lemma service_getMessages_state a b st :
  (MessageService.getMessages a b st).2 = st.
Proof. unfold MessageService.getMessages. by destruct (_ || _). Qed.

Lemma service_getConversations_state userId st :
  (MessageService.getConversations userId st).2 = st.
Proof. unfold MessageService.getConversations. by destruct (falsy _). Qed.

Lemma controller_getMessages_state auth from st :
  (MessageController.getMessages auth from st).2 = st.
Proof.
  unfold MessageController.getMessages.
  destruct auth; simpl; [done..|]. by destruct (falsy _).
Qed.

Lemma controller_getConversations_state auth st :
  (MessageController.getConversations auth st).2 = st.
Proof. by destruct auth. Qed.

(** ** Creation *)

(** [Message.create] stores a document exactly when the sender is there and
    casts; otherwise it throws a [ValidationError] and stores nothing. *)
Lemma Message_create_Returns cast oid built saved d st m st' :
  Message_create cast oid built saved d st = (Returns m, st') ↔
  ∃ sender,
    doc_sender d ≠ "" ∧ cast (doc_sender d) = Some sender ∧
    m = new_document oid sender built saved d ∧
    st' = {| Messages := Messages st ++ [m]; files := files st |}.
Proof.
  unfold Message_create. destruct (falsy (doc_sender d)) eqn:Hs.
  - apply falsy_true in Hs. split; [done|]. by intros (? & ? & _).
  - apply falsy_false in Hs.
    destruct (cast (doc_sender d)) as [sender|]; simpl.
    + split.
      * intros [= <- <-]. by exists sender.
      * intros (sender' & _ & [= <-] & -> & ->). done.
    + split; [done|]. by intros (? & _ & ? & _).
Qed.

Lemma Message_create_Throws cast oid built saved d st name st' :
  Message_create cast oid built saved d st = (Throws name, st') →
  name = "ValidationError" ∧ st' = st ∧
  (doc_sender d = "" ∨ cast (doc_sender d) = None).
Proof.
  unfold Message_create. destruct (falsy (doc_sender d)) eqn:Hs.
  - apply falsy_true in Hs. intros [= <- <-]. auto.
  - destruct (cast (doc_sender d)) as [sender|]; [done|].
    intros [= <- <-]. auto.
Qed.

(** A send of the service that succeeds has passed both guards and has
    stored the document of its arguments. *)
Lemma service_create_Success cast oid built saved senderId to text imageFile
    st c m st' :
  MessageService.createMessage cast oid built saved senderId to text imageFile st
    = (Success c m, st') →
  ∃ sender,
    c = 201%nat ∧ senderId ≠ "" ∧ to ≠ "" ∧
    falsy_opt text && no_file imageFile = false ∧
    cast senderId = Some sender ∧
    m = new_document oid sender built saved
          (mkDoc (messageContent text imageFile) [senderId; to] senderId) ∧
    st' = {| Messages := Messages st ++ [m]; files := files st |}.
Proof.
  unfold MessageService.createMessage.
  destruct (falsy senderId) eqn:Hs; [done|].
  destruct (falsy to) eqn:Ht; [done|]. simpl.
  destruct (falsy_opt text && no_file imageFile) eqn:Hcontent; [done|].
  destruct (Message_create _ _ _ _ _ _) as [[m'|name] st''] eqn:Hcreate;
    [|done].
  intros [= <- <- <-].
  apply Message_create_Returns in Hcreate as (sender & _ & Hcast & -> & ->).
  apply falsy_false in Hs, Ht. simpl in Hcast.
  exists sender. split_and!; done.
Qed.

(** The same for the controller. *)
Lemma controller_add_Success cast oid built saved senderId to text imageFile
    st c s st' :
  MessageController.addMessage cast oid built saved (Verified senderId) to text
    imageFile st = (Success c s, st') →
  ∃ sender m,
    c = 200%nat ∧ senderId ≠ "" ∧ to ≠ "" ∧
    falsy_opt text && no_file imageFile = false ∧
    cast senderId = Some sender ∧
    m = new_document oid sender built saved
          (mkDoc (messageContent text imageFile) [senderId; to] senderId) ∧
    s = Sent.mk oid (messageContent text imageFile) sender built ∧
    st' = {| Messages := Messages st ++ [m]; files := files st |}.
Proof.
  unfold MessageController.addMessage. simpl.
  destruct (falsy to) eqn:Ht; [done|].
  destruct (falsy_opt text && no_file imageFile) eqn:Hcontent; [done|].
  destruct (Message_create _ _ _ _ _ _) as [[m'|name] st''] eqn:Hcreate.
  - intros [= <- <- <-].
    apply Message_create_Returns in Hcreate as (sender & Hs & Hcast & -> & ->).
    apply falsy_false in Ht. simpl in Hs, Hcast.
    exists sender. eexists. split_and!; done.
  - unfold MessageController.catch. by destruct (decide _).
Qed.

(** A send that does not succeed stores nothing. *)
Lemma service_create_state cast oid built saved senderId to text imageFile st :
  (∃ c m,
     (MessageService.createMessage cast oid built saved senderId to text
        imageFile st).1 = Success c m) ∨
  (MessageService.createMessage cast oid built saved senderId to text
     imageFile st).2 = st.
Proof.
  unfold MessageService.createMessage.
  destruct (falsy senderId || falsy to); [by right|].
  destruct (falsy_opt text && no_file imageFile); [by right|].
  destruct (Message_create _ _ _ _ _ _) as [[m'|name] st''] eqn:Hcreate.
  - left. by eauto.
  - right. by apply Message_create_Throws in Hcreate as (_ & -> & _).
Qed.

Lemma controller_add_state cast oid built saved auth to text imageFile st :
  (∃ senderId c s,
     auth = Verified senderId ∧
     (MessageController.addMessage cast oid built saved auth to text
        imageFile st).1 = Success c s) ∨
  (MessageController.addMessage cast oid built saved auth to text
     imageFile st).2 = st.
Proof.
  unfold MessageController.addMessage.
  destruct auth as [| |senderId]; simpl; [by right..|].
  destruct (falsy to); [by right|].
  destruct (falsy_opt text && no_file imageFile); [by right|].
  destruct (Message_create _ _ _ _ _ _) as [[m'|name] st''] eqn:Hcreate.
  - left. by eauto.
  - right. by apply Message_create_Throws in Hcreate as (_ & -> & _).
Qed.

(** ** Removal, step by step *)

(** What a removal by the controller answers, by what the cast and the
    lookup give. *)
Lemma controller_delete_cases cast userId messageId st :
  match cast messageId with
  | None =>
      MessageController.deleteMessage cast (Verified userId) messageId st
        = (Raised "CastError", st)
  | Some oid =>
      match find_id oid (Messages st) with
      | None =>
          MessageController.deleteMessage cast (Verified userId) messageId st
            = (Failure 404 "Message not found", st)
      | Some message =>
          if decide (Msg.sender message = userId) then
            MessageController.deleteMessage cast (Verified userId) messageId st
              = (Success 200 "Message deleted successfully",
                 {| Messages := delete_id oid (Messages st);
                    files := unlink_image (Msg.message message) (files st) |})
          else
            MessageController.deleteMessage cast (Verified userId) messageId st
              = (Failure 403 "You can only delete your own messages", st)
      end
  end.
Proof.
  unfold MessageController.deleteMessage, Message_findById,
    Message_findByIdAndDelete. simpl.
  destruct (cast messageId) as [oid|]; [|done].
  destruct (find_id oid (Messages st)) as [message|]; [|done].
  destruct (decide (Msg.sender message = userId)) as [Hs|Hs].
  - by rewrite bool_decide_eq_true_2.
  - by rewrite bool_decide_eq_false_2.
Qed.

(** Past its guard the service does the same, but for the exception, which
    its [catch] answers with 500. *)
Lemma service_delete_cases cast userId messageId st :
  messageId ≠ "" → userId ≠ "" →
  match cast messageId with
  | None =>
      MessageService.deleteMessage cast messageId userId st
        = (Failure 500 "Failed to delete message", st)
  | Some _ =>
      MessageService.deleteMessage cast messageId userId st
        = MessageController.deleteMessage cast (Verified userId) messageId st
  end.
Proof.
  intros Hm%falsy_false Hu%falsy_false.
  unfold MessageService.deleteMessage, MessageController.deleteMessage,
    Message_findById, Message_findByIdAndDelete. simpl.
  rewrite Hm, Hu. simpl. by destruct (cast messageId).
Qed.

(** ** The invariant of the collection *)

Lemma messageContent_ok text imageFile :
  falsy_opt text && no_file imageFile = false →
  content_ok (messageContent text imageFile).
Proof.
  unfold messageContent, content_ok.
  destruct imageFile as [f|]; simpl.
  - intros _. destruct text as [body|]; simpl.
    + destruct (falsy body) eqn:Hbody; simpl; [by eauto|].
      apply falsy_false in Hbody. split; by eauto.
    + by eauto.
  - rewrite andb_true_r. destruct text as [body|]; [|done]. simpl.
    intros Hbody%falsy_false. by eauto.
Qed.

Lemma new_document_ok cast oid sender built saved senderId to text imageFile :
  senderId ≠ "" → to ≠ "" → cast senderId = Some sender →
  falsy_opt text && no_file imageFile = false →
  message_ok cast (new_document oid sender built saved
    {| doc_message := messageContent text imageFile;
       doc_users := [senderId; to];
       doc_sender := senderId |}).
Proof.
  intros Hs Ht Hcast Hcontent. split; simpl.
  - by exists senderId, to.
  - intros u [->|Hu]%elem_of_cons; [done|].
    by apply list_elem_of_singleton in Hu as ->.
  - done.
  - by apply messageContent_ok.
Qed.

Lemma inv_init cast : inv cast init.
Proof. split; [apply NoDup_nil_2 | apply Forall_nil_2]. Qed.

Lemma inv_insert cast oid st m :
  inv cast st → oid ∉ ids st → Msg._id m = oid → message_ok cast m →
  inv cast {| Messages := Messages st ++ [m]; files := files st |}.
Proof.
  intros [Hnd Hall] Hfresh Hid Hm. split.
  - unfold ids in *. simpl. rewrite fmap_app. simpl. rewrite Hid.
    apply NoDup_app. split_and!; [done| |apply NoDup_singleton].
    intros x Hx ->%list_elem_of_singleton. done.
  - simpl. apply Forall_app. split; [done|]. by apply Forall_singleton.
Qed.

Lemma inv_files cast st fs :
  inv cast st → inv cast {| Messages := Messages st; files := fs |}.
Proof. intros [Hnd Hall]. by split. Qed.

Lemma inv_delete cast id fs st :
  inv cast st →
  inv cast {| Messages := delete_id id (Messages st); files := fs |}.
Proof.
  intros [Hnd Hall]. pose proof (delete_id_sublist id (Messages st)) as Hsub.
  split.
  - unfold ids in *. simpl. eapply sublist_NoDup; [done|]. by apply fmap_sublist.
  - simpl. rewrite Forall_forall in *. intros m Hm. apply Hall.
    by apply (sublist_subseteq _ _ Hsub).
Qed.

Lemma inv_controller_delete cast auth messageId st :
  inv cast st →
  inv cast (MessageController.deleteMessage cast auth messageId st).2.
Proof.
  intros Hinv. destruct auth as [| |userId]; [done..|].
  pose proof (controller_delete_cases cast userId messageId st) as Hcases.
  destruct (cast messageId) as [oid|]; [|by rewrite Hcases].
  destruct (find_id oid (Messages st)) as [message|]; [|by rewrite Hcases].
  destruct (decide (Msg.sender message = userId)); rewrite Hcases; [|done].
  by apply inv_delete.
Qed.

Lemma inv_run cast c st : inv cast st → allowed c st → inv cast (run cast c st).
Proof.
  intros Hinv Hallowed. destruct c; simpl in *.
  - by apply inv_files.
  - destruct (MessageService.createMessage cast oid built saved senderId to
                text imageFile st) as [[code m| |] st'] eqn:Hr; simpl.
    + apply service_create_Success in Hr
        as (sender & _ & Hs & Ht & Hcontent & Hcast & -> & ->).
      by apply (inv_insert cast oid), new_document_ok.
    + destruct (service_create_state cast oid built saved senderId to text
                  imageFile st) as [(c & m & Hok)|Hst];
        rewrite Hr in *; simpl in *; [done|by subst].
    + destruct (service_create_state cast oid built saved senderId to text
                  imageFile st) as [(c & m & Hok)|Hst];
        rewrite Hr in *; simpl in *; [done|by subst].
  - by rewrite service_getMessages_state.
  - destruct (decide (messageId = "")) as [->|Hm]; [done|].
    destruct (decide (userId = "")) as [->|Hu].
    { unfold MessageService.deleteMessage.
      by rewrite (proj2 (falsy_false _) Hm). }
    pose proof (service_delete_cases cast userId messageId st Hm Hu) as Hcases.
    destruct (cast messageId); rewrite Hcases; [|done].
    by apply inv_controller_delete.
  - by rewrite service_getConversations_state.
  - destruct Hallowed as [Hfresh Htoken].
    destruct (MessageController.addMessage cast oid built saved auth to
                message imageFile st) as [[code s| |] st'] eqn:Hr; simpl.
    + destruct (controller_add_state cast oid built saved auth to message
                  imageFile st) as [(senderId & c & s' & -> & _)|Hst].
      * apply controller_add_Success in Hr
          as (sender & m & _ & Hs & Ht & Hcontent & Hcast & -> & _ & ->).
        by apply (inv_insert cast oid), new_document_ok.
      * rewrite Hr in Hst. simpl in Hst. by subst.
    + destruct (controller_add_state cast oid built saved auth to message
                  imageFile st) as [(senderId & c & s' & _ & Hok)|Hst];
        rewrite Hr in *; simpl in *; [done|by subst].
    + destruct (controller_add_state cast oid built saved auth to message
                  imageFile st) as [(senderId & c & s' & _ & Hok)|Hst];
        rewrite Hr in *; simpl in *; [done|by subst].
  - by rewrite controller_getMessages_state.
  - by apply inv_controller_delete.
  - by rewrite controller_getConversations_state.
Qed.

Lemma reachable_inv cast st : reachable cast st → inv cast st.
Proof. induction 1; [apply inv_init | by apply inv_run]. Qed.

Lemma reachable_message_ok cast st m :
  reachable cast st → m ∈ Messages st → message_ok cast m.
Proof.
  intros [_ Hall]%reachable_inv Hm. rewrite Forall_forall in Hall. by apply Hall.
Qed.


(** No stored message has the empty id among its participants. *)
Lemma reachable_no_empty_participant cast st m :
  reachable cast st → m ∈ Messages st → "" ∉ Msg.users m.
Proof.
  intros Hreach Hm Hin.
  by destruct (reachable_message_ok cast st m Hreach Hm) as [_ Hne _ _];
    apply (Hne "").
Qed.

Lemma reachable_run_all cast cs st :
  reachable cast st → allowed_all cast cs st → reachable cast (run_all cast cs st).
Proof.
  revert st. induction cs as [|c cs IH]; intros st Hreach; simpl; [done|].
  intros [Hc Hcs]. apply IH; [by apply reachable_run | done].
Qed.

Lemma reachable_two_users : reachable hex24 two_users.
Proof.
  apply reachable_run_all; [apply reachable_init|].
  apply (bool_decide_unpack _). by vm_compute.
Qed.

Lemma reachable_three_and_one : reachable hex24 three_and_one.
Proof.
  apply reachable_run_all; [apply reachable_init|].
  apply (bool_decide_unpack _). by vm_compute.
Qed.

Lemma reachable_same_millisecond : reachable hex24 same_millisecond.
Proof.
  apply reachable_run_all; [apply reachable_init|].
  apply (bool_decide_unpack _). by vm_compute.
Qed.

(** ** The group key *)

(** A field path into the strings of [users] finds nothing. *)
Lemma users_field_empty field m : users_field field m = VArray [].
Proof.
  unfold users_field. f_equal.
  induction (Msg.users m) as [|u us IH]; [done|]. done.
Qed.

(** So the key is the empty array, whatever the document and the viewer. *)
Lemma group_id_empty userId m : group_id userId m = VArray [].
Proof.
  unfold group_id. rewrite !users_field_empty. by destruct (decide _).
Qed.

(** ** Sending *)

(** C4. The content of a created message is derived from which of the body
    text and the image are present: both give [Mixed] with the text and the
    image path, the image alone gives [Image] with the image path, a
    non-empty body text alone gives [Text] with that text. With a sender id
    that casts to an [ObjectId] the service and the controller create the
    message with that content and store it; with a sender id that does not
    cast no message is created: the service answers 500 and the controller
    passes the [ValidationError] on. *)
Theorem send_content_tag cast oid built saved senderId to st :
  senderId ≠ "" → to ≠ "" →
  (∀ sender text imageFile c,
     cast senderId = Some sender →
     (∃ body f, body ≠ "" ∧ text = Some body ∧ imageFile = Some f ∧
        c = Content.mk (Some body) (Some ("/uploads/" +:+ filename f)) Mixed) ∨
     (∃ f, (text = None ∨ text = Some "") ∧ imageFile = Some f ∧
        c = Content.mk None (Some ("/uploads/" +:+ filename f)) Image) ∨
     (∃ body, body ≠ "" ∧ text = Some body ∧ imageFile = None ∧
        c = Content.mk (Some body) None Text) →
     let m := Msg.mk oid c [senderId; to] sender built saved saved in
     let st' := {| Messages := Messages st ++ [m]; files := files st |} in
     MessageService.createMessage cast oid built saved senderId to text
       imageFile st = (Success 201 m, st') ∧
     MessageController.addMessage cast oid built saved (Verified senderId) to
       text imageFile st = (Success 200 (Sent.mk oid c sender built), st')) ∧
  (cast senderId = None →
   ∀ text imageFile,
     (∃ body, text = Some body ∧ body ≠ "") ∨ (∃ f, imageFile = Some f) →
     MessageService.createMessage cast oid built saved senderId to text
       imageFile st = (Failure 500 "Failed to create message", st) ∧
     MessageController.addMessage cast oid built saved (Verified senderId) to
       text imageFile st = (Raised "ValidationError", st)).
Proof.
  intros Hs%falsy_false Ht%falsy_false.
  unfold MessageService.createMessage, MessageController.addMessage,
    MessageController.authenticate, Message_create, messageContent.
  rewrite Hs, Ht. simpl. split.
  - intros sender text imageFile c Hcast Hcases. rewrite Hs, Hcast.
    destruct Hcases as [(body & f & Hbody%falsy_false & -> & -> & ->)
                       |[(f & Htext%falsy_opt_true & -> & ->)
                        |(body & Hbody%falsy_false & -> & -> & ->)]]; simpl.
    + by rewrite Hbody.
    + by rewrite Htext.
    + by rewrite Hbody.
  - intros Hcast text imageFile Hcontent. rewrite Hs, Hcast.
    assert (falsy_opt text && no_file imageFile = false) as ->; [|done].
    destruct Hcontent as [(body & -> & Hbody%falsy_false)|(f & ->)]; simpl.
    + by rewrite Hbody.
    + apply andb_false_r.
Qed.

Lemma send_content_tag_witness :
  id_u1 ≠ "" ∧ id_u2 ≠ "" ∧ hex24 id_u1 = Some id_u1 ∧ "u1" ≠ "" ∧
  hex24 "u1" = None ∧
  (let m := Msg.mk id_m1 (Content.mk (Some "hi") None Text) [id_u1; id_u2]
              id_u1 10 11 11 in
   MessageService.createMessage hex24 id_m1 10 11 id_u1 id_u2 (Some "hi") None
     init = (Success 201 m, {| Messages := [m]; files := ∅ |}) ∧
   MessageController.addMessage hex24 id_m1 10 11 (Verified id_u1) id_u2
     (Some "hi") None init
     = (Success 200 (Sent.mk id_m1 (Content.mk (Some "hi") None Text) id_u1 10),
        {| Messages := [m]; files := ∅ |})) ∧
  MessageService.createMessage hex24 id_m1 10 11 "u1" id_u2 (Some "hi") None
    init = (Failure 500 "Failed to create message", init) ∧
  MessageController.addMessage hex24 id_m1 10 11 (Verified "u1") id_u2
    (Some "hi") None init = (Raised "ValidationError", init).
Proof.
  destruct (send_content_tag hex24 id_m1 10 11 id_u1 id_u2 init)
    as [Hcreated _]; [done..|].
  destruct (send_content_tag hex24 id_m1 10 11 "u1" id_u2 init)
    as [_ Hfailed]; [done..|].
  destruct (Hcreated id_u1 (Some "hi") None (Content.mk (Some "hi") None Text))
    as [Hservice Hcontroller]; [done | right; right; by exists "hi" |].
  destruct (Hfailed eq_refl (Some "hi") None) as [Hservice' Hcontroller'];
    [left; by exists "hi"|].
  split_and!; done.
Defined.

(** C7. A send whose body text is absent or empty and that carries no image
    fails with status 400, in the service and, for a verified sender, in the
    controller; whatever the token, the controller fails too; and each
    failed call returns the state, hence the collection, as it was. *)
Theorem send_without_content_rejected cast oid built saved senderId to text st :
  text = None ∨ text = Some "" →
  (∃ error,
     MessageService.createMessage cast oid built saved senderId to text None st
       = (Failure 400 error, st)) ∧
  (∃ error,
     MessageController.addMessage cast oid built saved (Verified senderId) to
       text None st
       = (Failure 400 error, st)) ∧
  (∀ auth, ∃ code error,
     MessageController.addMessage cast oid built saved auth to text None st
       = (Failure code error, st)).
Proof.
  intros Htext%falsy_opt_true.
  unfold MessageService.createMessage, MessageController.addMessage,
    MessageController.authenticate.
  rewrite Htext. simpl. split_and!.
  - destruct (falsy senderId || falsy to); eauto.
  - destruct (falsy to); eauto.
  - intros [| |userId]; [eauto..|]. destruct (falsy to); eauto.
Qed.

Lemma send_without_content_rejected_witness :
  (Some "" = None ∨ Some "" = Some "") ∧
  (∃ error,
     MessageService.createMessage hex24 id_m3 30 31 id_u1 id_u2 (Some "") None
       two_users
       = (Failure 400 error, two_users)) ∧
  (∃ error,
     MessageController.addMessage hex24 id_m3 30 31 (Verified id_u1) id_u2
       (Some "") None two_users
       = (Failure 400 error, two_users)).
Proof.
  split; [by right|].
  split;
    apply (send_without_content_rejected hex24 id_m3 30 31 id_u1 id_u2 (Some "")
             two_users);
    by right.
Defined.

(** C10, as amended. Every message the code creates stores the id of the
    sender in slot 0 and the id of the recipient in slot 1 of [users], as
    the strings of the request, and stores as [sender] the [ObjectId] that
    the id of the sender casts to: a successful send appends such a record,
    and every record of a reachable state has that shape. *)
Theorem sender_in_slot_0 cast st :
  reachable cast st →
  (∀ m, m ∈ Messages st →
     ∃ senderId recipient,
       Msg.users m = [senderId; recipient] ∧
       cast senderId = Some (Msg.sender m)) ∧
  (∀ oid built saved senderId to text imageFile c m st',
     MessageService.createMessage cast oid built saved senderId to text
       imageFile st = (Success c m, st') →
     Msg.users m = [senderId; to] ∧ cast senderId = Some (Msg.sender m) ∧
     Messages st' = Messages st ++ [m]) ∧
  (∀ oid built saved senderId to text imageFile c s st',
     MessageController.addMessage cast oid built saved (Verified senderId) to
       text imageFile st = (Success c s, st') →
     ∃ m, Messages st' = Messages st ++ [m] ∧ Msg._id m = Sent._id s ∧
          Msg.sender m = Sent.sender s ∧
          Msg.users m = [senderId; to] ∧ cast senderId = Some (Msg.sender m)).
Proof.
  intros Hreach. split_and!.
  - intros m Hm.
    by destruct (reachable_message_ok cast st m Hreach Hm) as [Hu _ _ _].
  - intros oid built saved senderId to text imageFile c m st'
      (sender & _ & _ & _ & _ & Hcast & -> & ->)%service_create_Success.
    done.
  - intros oid built saved senderId to text imageFile c s st'
      (sender & m & _ & _ & _ & _ & Hcast & -> & -> & ->)%controller_add_Success.
    by eexists.
Qed.

Lemma sender_in_slot_0_witness :
  reachable hex24 two_users ∧
  ∀ m, m ∈ Messages two_users →
    ∃ senderId recipient,
      Msg.users m = [senderId; recipient] ∧
      hex24 senderId = Some (Msg.sender m).
Proof.
  split; [apply reachable_two_users|].
  apply (sender_in_slot_0 hex24 two_users), reachable_two_users.
Defined.

(** C10, as stated, fails. The service accepts the id of A written in upper
    case: the record it creates holds that string in slot 0 and, as
    [sender], the [ObjectId], whose digits print in lower case, so [sender]
    is not slot 0. And whatever the case, the key under which the
    aggregation of the sender groups the record is not the recipient: it is
    the empty array. *)
Lemma sender_is_not_slot_0 :
  let upper := "64A00000000000000000000A" in
  ∃ m st',
    MessageService.createMessage hex24 id_m1 10 10 upper id_B (Some "hi") None
      init = (Success 201 m, st') ∧
    Msg.users m = [upper; id_B] ∧ Msg.sender m = id_A ∧
    Msg.users m !! 0%nat ≠ Some (Msg.sender m) ∧
    group_id upper m = VArray [] ∧ group_id upper m ≠ VString id_B ∧
    (∀ m', m' ∈ Messages three_and_one →
       group_id (Msg.sender m') m' = VArray []).
Proof.
  intros upper. eexists _, _. split_and!; [by vm_compute|done..|].
  intros m' _. apply group_id_empty.
Qed.

(** ** History *)

Lemma find_sorted_Permutation a b db :
  Message_find_sorted a b db ≡ₚ filter (users_all a b) db.
Proof. apply merge_sort_Permutation. Qed.

Lemma find_sorted_by_updatedAt a b db :
  StronglySorted by_updatedAt_asc (Message_find_sorted a b db).
Proof. apply StronglySorted_merge_sort; apply _. Qed.

(** The order the model computes with is one that MongoDB may return. *)
Lemma Message_find_sorted_result a b db :
  find_sorted_result a b db (Message_find_sorted a b db).
Proof. split; [apply find_sorted_Permutation|apply find_sorted_by_updatedAt]. Qed.

Lemma find_sorted_result_elem_of a b db ms m :
  find_sorted_result a b db ms →
  m ∈ ms ↔ m ∈ db ∧ a ∈ Msg.users m ∧ b ∈ Msg.users m.
Proof.
  intros [Hperm _]. rewrite Hperm, list_elem_of_filter.
  unfold users_all. tauto.
Qed.

Lemma find_sorted_elem_of a b db m :
  m ∈ Message_find_sorted a b db ↔
  m ∈ db ∧ a ∈ Msg.users m ∧ b ∈ Msg.users m.
Proof. apply find_sorted_result_elem_of, Message_find_sorted_result. Qed.

(** A list sorted for one order is sorted for any order that agrees with it
    on the elements of the list. *)
Lemma StronglySorted_agree {A} (R1 R2 : relation A) (l : list A) :
  (∀ x y, x ∈ l → y ∈ l → R1 x y → R2 x y) →
  StronglySorted R1 l → StronglySorted R2 l.
Proof.
  intros Hagree Hsorted. induction Hsorted as [|x l Hs IH Hx]; constructor.
  - apply IH. intros y z Hy Hz. apply Hagree; by right.
  - rewrite Forall_forall in *. intros y Hy.
    apply Hagree; [by left | by right | by apply Hx].
Qed.

(** Two sorted arrangements of the same elements are the same list when the
    order tells any two of the elements apart. *)
Lemma sorted_Permutation_unique {A} (R : relation A) (l1 l2 : list A) :
  (∀ x y, x ∈ l1 → y ∈ l1 → R x y → R y x → x = y) →
  StronglySorted R l1 → StronglySorted R l2 → l1 ≡ₚ l2 → l1 = l2.
Proof.
  revert l2. induction l1 as [|x l1 IH]; intros l2 Hanti Hs1 Hs2 Hperm.
  - by apply Permutation_nil_l in Hperm.
  - destruct l2 as [|y l2]; [by apply Permutation_nil_r in Hperm|].
    apply StronglySorted_inv in Hs1 as [Hs1 Hx], Hs2 as [Hs2 Hy].
    rewrite Forall_forall in Hx, Hy.
    assert (x = y) as <-.
    { assert (y ∈ x :: l1) as Hyin by (rewrite Hperm; by left).
      assert (x ∈ y :: l2) as Hxin by (rewrite <-Hperm; by left).
      apply elem_of_cons in Hyin as [->|Hyin]; [done|].
      apply elem_of_cons in Hxin as [->|Hxin]; [done|].
      apply Hanti; [by left|by right|by apply Hx|by apply Hy]. }
    f_equal. apply IH; [|done|done|by apply Permutation_cons_inv in Hperm].
    intros z w Hz Hw. apply Hanti; by right.
Qed.

Lemma service_getMessages_records a b st :
  a ≠ "" → b ≠ "" →
  (MessageService.getMessages a b st).1
    = Success 200
        {| messages := project a <$> Message_find_sorted a b (Messages st);
           count := length (Message_find_sorted a b (Messages st)) |}.
Proof.
  intros Ha%falsy_false Hb%falsy_false. unfold MessageService.getMessages.
  rewrite Ha, Hb. simpl. by rewrite length_fmap.
Qed.

Lemma controller_getMessages_records a b st :
  b ≠ "" →
  (MessageController.getMessages (Verified a) b st).1
    = Success 200
        {| messages := project a <$> Message_find_sorted a b (Messages st);
           count := length (Message_find_sorted a b (Messages st)) |}.
Proof.
  intros Hb%falsy_false. unfold MessageController.getMessages. simpl.
  rewrite Hb. simpl. by rewrite length_fmap.
Qed.

(** Whatever the ids, the records of a response are the projections of the
    sorted matching documents, or there are none. *)
Lemma service_records_cases a b st :
  records (MessageService.getMessages a b st).1 = [] ∨
  records (MessageService.getMessages a b st).1
    = project a <$> Message_find_sorted a b (Messages st).
Proof.
  unfold MessageService.getMessages.
  destruct (falsy a || falsy b); simpl; [by left | by right].
Qed.

Lemma controller_records_cases auth b st :
  records (MessageController.getMessages auth b st).1 = [] ∨
  ∃ a, auth = Verified a ∧
    records (MessageController.getMessages auth b st).1
      = project a <$> Message_find_sorted a b (Messages st).
Proof.
  unfold MessageController.getMessages.
  destruct auth as [| |a]; simpl; [by left..|].
  destruct (falsy b); simpl; [by left | right; by exists a].
Qed.

(** On a reachable state a guard that rejects an empty id rejects a request
    that no stored message matches, so in every case the records of the
    response are the projections of the sorted matching documents. *)
Lemma find_sorted_empty_id cast a b st :
  reachable cast st → a = "" ∨ b = "" →
  Message_find_sorted a b (Messages st) = [].
Proof.
  intros Hreach Hab. apply elem_of_nil_inv.
  intros m (Hm & Ha & Hb)%find_sorted_elem_of.
  apply (reachable_no_empty_participant cast st m Hreach Hm).
  by destruct Hab as [<-|<-].
Qed.

Lemma service_records_reachable cast a b st :
  reachable cast st →
  records (MessageService.getMessages a b st).1
    = project a <$> Message_find_sorted a b (Messages st).
Proof.
  intros Hreach. unfold MessageService.getMessages.
  destruct (falsy a) eqn:Ha; simpl.
  { apply falsy_true in Ha.
    rewrite (find_sorted_empty_id cast); [done..|by left]. }
  destruct (falsy b) eqn:Hb; simpl; [|done].
  apply falsy_true in Hb. rewrite (find_sorted_empty_id cast); [done..|by right].
Qed.

Lemma controller_records_reachable cast a b st :
  reachable cast st →
  records (MessageController.getMessages (Verified a) b st).1
    = project a <$> Message_find_sorted a b (Messages st).
Proof.
  intros Hreach. unfold MessageController.getMessages. simpl.
  destruct (falsy b) eqn:Hb; simpl; [|done].
  apply falsy_true in Hb. rewrite (find_sorted_empty_id cast); [done..|by right].
Qed.

(** The records of a list of documents, field by field. *)
Lemma project_Forall2 a ms :
  Forall2 (λ v m, v = View.mk (bool_decide (Msg.sender m = a)) (Msg.message m)
                        (Msg.time m) (Msg._id m))
    (project a <$> ms) ms.
Proof. induction ms as [|m ms IH]; constructor; done. Qed.

(** C5. On every state the server can reach and for every two ids, a
    history holds exactly the stored messages whose participants include
    both, each once, in non-decreasing order of [createdAt]; of each message
    it shows the content, the [time], the id, and whether the first id is
    the sender. This holds of every order the database may return the
    messages in, and of the answer of the service and of the controller;
    for two ids that are not empty that answer is the success that carries
    these records and their number. *)
Theorem history_complete_and_ordered cast a b st vs :
  reachable cast st →
  history_result a b st vs ∨
  vs = records (MessageService.getMessages a b st).1 ∨
  vs = records (MessageController.getMessages (Verified a) b st).1 →
  ∃ ms,
    ms ≡ₚ filter (λ m, a ∈ Msg.users m ∧ b ∈ Msg.users m) (Messages st) ∧
    StronglySorted (λ m1 m2, Msg.createdAt m1 ≤ Msg.createdAt m2) ms ∧
    Forall2 (λ v m, v = View.mk (bool_decide (Msg.sender m = a))
                          (Msg.message m) (Msg.time m) (Msg._id m)) vs ms ∧
    (b ≠ "" →
       (a ≠ "" → vs = records (MessageService.getMessages a b st).1 →
        (MessageService.getMessages a b st).1
          = Success 200 {| messages := vs; count := length ms |}) ∧
       (vs = records (MessageController.getMessages (Verified a) b st).1 →
        (MessageController.getMessages (Verified a) b st).1
          = Success 200 {| messages := vs; count := length ms |})).
Proof.
  intros Hreach Hvs.
  assert (history_result a b st vs) as (ms & Hresult & ->).
  { destruct Hvs as [Hvs|[-> | ->]]; [done|..].
    - rewrite (service_records_reachable cast) by done.
      eexists. split; [apply Message_find_sorted_result|done].
    - rewrite (controller_records_reachable cast) by done.
      eexists. split; [apply Message_find_sorted_result|done]. }
  clear Hvs. exists ms. destruct Hresult as [Hperm Hsorted]. split_and!.
  - done.
  - eapply StronglySorted_agree; [|done].
    intros m1 m2 H1 H2. unfold by_updatedAt_asc.
    assert (∀ m, m ∈ ms → Msg.updatedAt m = Msg.createdAt m) as Hstamps.
    { intros m Hm. rewrite Hperm in Hm.
      apply list_elem_of_filter in Hm as [_ Hm].
      by destruct (reachable_message_ok cast st m Hreach Hm). }
    by rewrite !Hstamps.
  - apply project_Forall2.
  - intros Hb. split.
    + intros Ha Heq. rewrite service_getMessages_records in Heq |- * by done.
      simpl in Heq. rewrite <-Heq. do 2 f_equal.
      apply (f_equal length) in Heq. by rewrite !length_fmap in Heq.
    + intros Heq. rewrite controller_getMessages_records in Heq |- * by done.
      simpl in Heq. rewrite <-Heq. do 2 f_equal.
      apply (f_equal length) in Heq. by rewrite !length_fmap in Heq.
Qed.

Lemma history_complete_and_ordered_witness :
  let vs := records (MessageService.getMessages id_u1 id_u2 two_users).1 in
  reachable hex24 two_users ∧
  vs = [ View.mk true (Content.mk (Some "hi") None Text) 10 id_m1;
         View.mk false (Content.mk None (Some "/uploads/img1.png") Image) 20
           id_m2 ] ∧
  ∃ ms,
    ms ≡ₚ filter (λ m, id_u1 ∈ Msg.users m ∧ id_u2 ∈ Msg.users m)
            (Messages two_users) ∧
    StronglySorted (λ m1 m2, Msg.createdAt m1 ≤ Msg.createdAt m2) ms ∧
    Forall2 (λ v m, v = View.mk (bool_decide (Msg.sender m = id_u1))
                          (Msg.message m) (Msg.time m) (Msg._id m)) vs ms.
Proof.
  intros vs. split; [apply reachable_two_users|]. split; [by vm_compute|].
  destruct (history_complete_and_ordered hex24 id_u1 id_u2 two_users vs)
    as (ms & Hperm & Hsorted & Hfields & _);
    [apply reachable_two_users | right; by left |].
  by exists ms.
Defined.

(** C6. Every record of a history is the projection of a stored message of
    the pair: its [fromSelf] is true exactly when the sender of the message
    is the viewer, and besides the flag it carries the content, the time and
    the id of the message and nothing else. *)
Theorem history_fromSelf a b st v :
  v ∈ records (MessageService.getMessages a b st).1 ∨
  v ∈ records (MessageController.getMessages (Verified a) b st).1 →
  ∃ m, m ∈ Messages st ∧ a ∈ Msg.users m ∧ b ∈ Msg.users m ∧
    (View.fromSelf v = true ↔ Msg.sender m = a) ∧
    v = {| View.fromSelf := View.fromSelf v;
           View.message := Msg.message m;
           View.time := Msg.time m;
           View._id := Msg._id m |}.
Proof.
  assert (Hproj : v ∈ project a <$> Message_find_sorted a b (Messages st) →
    ∃ m, m ∈ Messages st ∧ a ∈ Msg.users m ∧ b ∈ Msg.users m ∧
      (View.fromSelf v = true ↔ Msg.sender m = a) ∧
      v = {| View.fromSelf := View.fromSelf v;
             View.message := Msg.message m;
             View.time := Msg.time m;
             View._id := Msg._id m |}).
  { intros (m & -> & (Hm & Ha & Hb)%find_sorted_elem_of)%list_elem_of_fmap.
    exists m. split_and!; [done..| |done].
    unfold project. simpl. apply bool_decide_eq_true. }
  intros [Hv|Hv].
  - destruct (service_records_cases a b st) as [Hnil|Heq].
    + rewrite Hnil in Hv. by apply elem_of_nil in Hv.
    + rewrite Heq in Hv. by apply Hproj.
  - destruct (controller_records_cases (Verified a) b st) as [Hnil|(a' & [= <-] & Heq)].
    + rewrite Hnil in Hv. by apply elem_of_nil in Hv.
    + rewrite Heq in Hv. by apply Hproj.
Qed.

Lemma history_fromSelf_witness :
  let v := View.mk true (Content.mk (Some "hi") None Text) 10 id_m1 in
  v ∈ records (MessageService.getMessages id_u1 id_u2 two_users).1 ∧
  ∃ m, m ∈ Messages two_users ∧ id_u1 ∈ Msg.users m ∧ id_u2 ∈ Msg.users m ∧
    (View.fromSelf v = true ↔ Msg.sender m = id_u1) ∧
    v = {| View.fromSelf := View.fromSelf v;
           View.message := Msg.message m;
           View.time := Msg.time m;
           View._id := Msg._id m |}.
Proof.
  intros v.
  assert (Hv : v ∈ records (MessageService.getMessages id_u1 id_u2 two_users).1)
    by (apply (bool_decide_unpack _); by vm_compute).
  split; [done|].
  apply (history_fromSelf id_u1 id_u2 two_users v). by left.
Defined.

(** C9, as amended. A history request only reads: the service and the
    controller return the state they were given. Two histories of the same
    state hold the same records, and they are the same sequence when no two
    messages of the pair have the same [updatedAt]; the answer of the
    service and of the controller is one of these histories. *)
Theorem history_is_pure_read a b auth st vs1 vs2 :
  history_result a b st vs1 → history_result a b st vs2 →
  vs1 ≡ₚ vs2 ∧
  (NoDup (Msg.updatedAt <$> filter (users_all a b) (Messages st)) → vs1 = vs2) ∧
  (MessageService.getMessages a b st).2 = st ∧
  (MessageController.getMessages auth b st).2 = st ∧
  (b ≠ "" →
     (a ≠ "" →
      history_result a b st (records (MessageService.getMessages a b st).1)) ∧
     history_result a b st
       (records (MessageController.getMessages (Verified a) b st).1)).
Proof.
  intros (ms1 & [Hperm1 Hsorted1] & ->) (ms2 & [Hperm2 Hsorted2] & ->).
  split_and!.
  - by rewrite Hperm1, Hperm2.
  - intros Hnodup. f_equal.
    apply (sorted_Permutation_unique by_updatedAt_asc);
      [|done|done|by rewrite Hperm1, Hperm2].
    intros x y Hx Hy Hxy Hyx. rewrite Hperm1 in Hx, Hy.
    apply (NoDup_fmap_elem_inj Msg.updatedAt
             (filter (users_all a b) (Messages st))); [done..|].
    unfold by_updatedAt_asc in *. lia.
  - apply service_getMessages_state.
  - apply controller_getMessages_state.
  - intros Hb. split.
    + intros Ha. rewrite service_getMessages_records by done.
      eexists. split; [apply Message_find_sorted_result|done].
    + rewrite controller_getMessages_records by done.
      eexists. split; [apply Message_find_sorted_result|done].
Qed.

Lemma history_is_pure_read_witness :
  let vs1 := records (MessageService.getMessages id_u1 id_u2 two_users).1 in
  let vs2 :=
    [ View.mk true (Content.mk (Some "hi") None Text) 10 id_m1;
      View.mk false (Content.mk None (Some "/uploads/img1.png") Image) 20
        id_m2 ] in
  history_result id_u1 id_u2 two_users vs1 ∧
  history_result id_u1 id_u2 two_users vs2 ∧
  NoDup (Msg.updatedAt <$> filter (users_all id_u1 id_u2) (Messages two_users)) ∧
  vs1 = vs2 ∧
  (MessageService.getMessages id_u1 id_u2 two_users).2 = two_users.
Proof.
  intros vs1 vs2.
  assert (history_result id_u1 id_u2 two_users vs1) as Hvs1.
  { exists (Message_find_sorted id_u1 id_u2 (Messages two_users)).
    split; [apply Message_find_sorted_result|by vm_compute]. }
  assert (history_result id_u1 id_u2 two_users vs2) as Hvs2.
  { exists [ Msg.mk id_m1 (Content.mk (Some "hi") None Text) [id_u1; id_u2]
               id_u1 10 11 11;
             Msg.mk id_m2 (Content.mk None (Some "/uploads/img1.png") Image)
               [id_u2; id_u1] id_u2 20 21 21 ].
    split; [|done]. split.
    - apply (bool_decide_unpack _). by vm_compute.
    - repeat constructor; unfold by_updatedAt_asc; simpl; lia. }
  assert (NoDup (Msg.updatedAt <$>
                   filter (users_all id_u1 id_u2) (Messages two_users)))
    as Hnodup by (apply (bool_decide_unpack _); by vm_compute).
  destruct (history_is_pure_read id_u1 id_u2 NoToken two_users vs1 vs2 Hvs1 Hvs2)
    as (_ & Hsame & Hstate & _).
  split_and!; [done..|by apply Hsame|done].
Defined.

(** C9, as stated, fails: when two messages of a pair were saved in the same
    millisecond, the sort by [updatedAt] leaves their order open, and the
    store allows two histories that differ. *)
Lemma history_twice_may_differ :
  ∃ vs1 vs2,
    reachable hex24 same_millisecond ∧
    history_result id_u1 id_u2 same_millisecond vs1 ∧
    history_result id_u1 id_u2 same_millisecond vs2 ∧
    vs1 ≠ vs2.
Proof.
  pose (m1 := Msg.mk id_m1 (Content.mk (Some "first") None Text)
                [id_u1; id_u2] id_u1 10 12 12).
  pose (m2 := Msg.mk id_m2 (Content.mk (Some "second") None Text)
                [id_u1; id_u2] id_u1 11 12 12).
  exists (project id_u1 <$> [m1; m2]), (project id_u1 <$> [m2; m1]).
  split_and!; [apply reachable_same_millisecond| | |done].
  - exists [m1; m2]. split; [|done]. split.
    + apply (bool_decide_unpack _). by vm_compute.
    + repeat constructor; unfold by_updatedAt_asc; simpl; lia.
  - exists [m2; m1]. split; [|done]. split.
    + apply (bool_decide_unpack _). by vm_compute.
    + repeat constructor; unfold by_updatedAt_asc; simpl; lia.
Qed.

(** ** Removal *)








(** ** Conversations *)


Lemma filter_agree {A} (P Q : A → Prop)
    `{!∀ x, Decision (P x), !∀ x, Decision (Q x)} (l : list A) :
  (∀ x, x ∈ l → P x ↔ Q x) → filter P l = filter Q l.
Proof.
  induction l as [|x l IH]; intros Hagree; [done|].
  rewrite !filter_cons, IH by (intros y Hy; apply Hagree; by right).
  apply decide_ext, Hagree. by left.
Qed.

Section pipeline.
Context (g : Glyphs) (userId : string) (db : list Msg.t).



Lemma match_sort_length :
  length (match_sort_stages userId db)
    = length (filter (λ m, userId ∈ Msg.users m) db).
Proof. unfold match_sort_stages. by rewrite merge_sort_Permutation. Qed.




(** All the documents of a viewer have the same key, so [$group] makes one
    group of them. *)
Lemma group_of_all : group_of userId db (VArray []) = match_sort_stages userId db.
Proof.
  unfold group_of.
  induction (match_sort_stages userId db) as [|m docs IH]; [done|].
  by rewrite filter_cons, decide_True, IH by apply group_id_empty.
Qed.

Lemma group_keys :
  remove_dups (group_id userId <$> match_sort_stages userId db)
    = match match_sort_stages userId db with
      | [] => []
      | _ :: _ => [VArray []]
      end.
Proof.
  induction (match_sort_stages userId db) as [|m docs IH]; [done|].
  rewrite fmap_cons, group_id_empty. simpl. rewrite IH.
  destruct (decide_rel elem_of (VArray []) (group_id userId <$> docs))
    as [Hin|Hout].
  - destruct docs; [by apply elem_of_nil in Hin|done].
  - destruct docs as [|m' docs]; [done|]. destruct Hout.
    rewrite fmap_cons, group_id_empty. by left.
Qed.

Lemma aggregate_single_group :
  Message_aggregate g userId db
    = match match_sort_stages userId db with
      | [] => []
      | first :: rest =>
          [ {| Summary._id := VArray [];
               Summary.lastMessage := lastMessage_expr g first;
               Summary.lastMessageTime := Msg.time first;
               Summary.messageCount := S (length rest) |} ]
      end.
Proof.
  unfold Message_aggregate, group_stage. rewrite group_keys.
  pose proof group_of_all as Hall. unfold group_of in Hall.
  destruct (match_sort_stages userId db) as [|first rest] eqn:Hdocs; [done|].
  simpl fmap. rewrite Hall. done.
Qed.

End pipeline.

Lemma service_summaries userId st :
  userId ≠ "" →
  summaries (MessageService.getConversations userId st).1
    = Message_aggregate service_glyphs userId (Messages st).
Proof.
  intros Hu%falsy_false. unfold MessageService.getConversations.
  by rewrite Hu.
Qed.

Lemma controller_summaries userId st :
  summaries (MessageController.getConversations (Verified userId) st).1
    = Message_aggregate controller_glyphs userId (Messages st).
Proof. done. Qed.

(** Whatever the id of the viewer, the summaries of a response are those of
    the pipeline, or there are none. *)
Lemma service_summaries_cases userId st :
  summaries (MessageService.getConversations userId st).1 = [] ∨
  summaries (MessageService.getConversations userId st).1
    = Message_aggregate service_glyphs userId (Messages st).
Proof.
  unfold MessageService.getConversations.
  destruct (falsy userId); [by left|by right].
Qed.

Lemma aggregate_facts g v db s :
  s ∈ Message_aggregate g v db →
  Message_aggregate g v db = [s] ∧
  Summary._id s = VArray [] ∧
  Summary.messageCount s = length (filter (λ m, v ∈ Msg.users m) db).
Proof.
  rewrite aggregate_single_group, <-match_sort_length.
  destruct (match_sort_stages v db) as [|first rest]; [by intros ?%elem_of_nil|].
  by intros ->%list_elem_of_singleton.
Qed.

(** The messages exchanged between a viewer and a peer. *)
Lemma between_count :
  length (filter (λ m, Msg.users m = [id_A; id_B] ∨ Msg.users m = [id_B; id_A])
            (Messages three_and_one)) = 3%nat ∧
  length (filter (λ m, Msg.users m = [id_A; id_C] ∨ Msg.users m = [id_C; id_A])
            (Messages three_and_one)) = 1%nat.
Proof. split; by vm_compute. Qed.

(** C1. The design asks for one summary per peer. The code gives this: for
    every viewer and every state, the service and the controller answer
    with one summary at most, whose key is the empty array and whose count
    is the number of all the stored messages of the viewer. For viewer A
    after three messages with B and one with C, the store holds three
    messages between A and B and one between A and C, and the answer is one
    summary, of count 4, with the preview and the time of the most recent of
    the four. *)
Theorem conversations_single_summary :
  (∀ v st s,
     s ∈ summaries (MessageService.getConversations v st).1 ∨
     s ∈ summaries (MessageController.getConversations (Verified v) st).1 →
     Summary._id s = VArray [] ∧
     Summary.messageCount s
       = length (filter (λ m, v ∈ Msg.users m) (Messages st))) ∧
  (∀ v st,
     (length (summaries (MessageService.getConversations v st).1) ≤ 1)%nat ∧
     (length
        (summaries (MessageController.getConversations (Verified v) st).1)
      ≤ 1)%nat) ∧
  reachable hex24 three_and_one ∧
  length (filter (λ m, Msg.users m = [id_A; id_B] ∨ Msg.users m = [id_B; id_A])
            (Messages three_and_one)) = 3%nat ∧
  length (filter (λ m, Msg.users m = [id_A; id_C] ∨ Msg.users m = [id_C; id_A])
            (Messages three_and_one)) = 1%nat ∧
  summaries (MessageService.getConversations id_A three_and_one).1
    = [ {| Summary._id := VArray [];
           Summary.lastMessage := Some "three";
           Summary.lastMessageTime := 30;
           Summary.messageCount := 4 |} ] ∧
  summaries
    (MessageController.getConversations (Verified id_A) three_and_one).1
    = [ {| Summary._id := VArray [];
           Summary.lastMessage := Some "three";
           Summary.lastMessageTime := 30;
           Summary.messageCount := 4 |} ].
Proof.
  split_and!; [| |apply reachable_three_and_one|apply between_count..| |].
  - intros v st s [Hs|Hs].
    + destruct (service_summaries_cases v st) as [Hnil|Heq].
      * rewrite Hnil in Hs. by apply elem_of_nil in Hs.
      * rewrite Heq in Hs. by apply aggregate_facts in Hs as (_ & ? & ?).
    + rewrite controller_summaries in Hs.
      by apply aggregate_facts in Hs as (_ & ? & ?).
  - intros v st. split.
    + destruct (service_summaries_cases v st) as [-> | ->]; [simpl; lia|].
      rewrite aggregate_single_group.
      destruct (match_sort_stages _ _); simpl; lia.
    + rewrite controller_summaries, aggregate_single_group.
      destruct (match_sort_stages _ _); simpl; lia.
  - by vm_compute.
  - by vm_compute.
Qed.

(** C2. The design asks for the positional key. The code gives this: for
    every viewer and every message the key of the group is the empty array,
    which is neither slot of [users] nor any id; so is the [_id] of every
    summary that the service and the controller answer with. For viewer A
    and the message A sent to B, slot 0 is A and slot 1 is B, and the
    summary that counts the message does not bear the key B. *)
Theorem group_key_is_empty_array :
  (∀ v m, group_id v m = VArray [] ∧ ∀ p, group_id v m ≠ VString p) ∧
  (∀ v st s,
     s ∈ summaries (MessageService.getConversations v st).1 ∨
     s ∈ summaries (MessageController.getConversations (Verified v) st).1 →
     ∀ p, Summary._id s ≠ VString p) ∧
  (let m := Msg.mk id_m1 (Content.mk (Some "one") None Text) [id_A; id_B]
              id_A 10 10 10 in
   m ∈ Messages three_and_one ∧
   Msg.users m !! 0%nat = Some id_A ∧ Msg.users m !! 1%nat = Some id_B ∧
   group_id id_A m = VArray [] ∧
   ∀ s, s ∈ summaries (MessageService.getConversations id_A three_and_one).1 →
        Summary._id s ≠ VString id_B).
Proof.
  assert (Hkey : ∀ v m, group_id v m = VArray [] ∧ ∀ p, group_id v m ≠ VString p).
  { intros v m. rewrite group_id_empty. by split. }
  assert (Hsum : ∀ v st s,
     s ∈ summaries (MessageService.getConversations v st).1 ∨
     s ∈ summaries (MessageController.getConversations (Verified v) st).1 →
     ∀ p, Summary._id s ≠ VString p).
  { intros v st s Hs p.
    assert (Summary._id s = VArray []) as ->; [|done].
    destruct Hs as [Hs|Hs].
    - destruct (service_summaries_cases v st) as [Hnil|Heq].
      + rewrite Hnil in Hs. by apply elem_of_nil in Hs.
      + rewrite Heq in Hs. by apply aggregate_facts in Hs as (_ & ? & _).
    - rewrite controller_summaries in Hs.
      by apply aggregate_facts in Hs as (_ & ? & _). }
  split_and!; [done|done|]. intros m. split_and!; [|done|done|apply Hkey|].
  - apply (bool_decide_unpack _). by vm_compute.
  - intros s Hs. apply (Hsum id_A three_and_one). by left.
Qed.





(** The previews of the three tags, byte for byte, in the service and in the
    controller. *)
Example previews_of_the_tags :
  let text := Msg.mk id_m1 (Content.mk (Some "hi") None Text)
                [id_u1; id_u2] id_u1 10 11 11 in
  let image := Msg.mk id_m2 (Content.mk None (Some "/uploads/a.png") Image)
                 [id_u1; id_u2] id_u1 10 11 11 in
  let mixed := Msg.mk id_m3 (Content.mk (Some "see") (Some "/uploads/a.png") Mixed)
                 [id_u1; id_u2] id_u1 10 11 11 in
  lastMessage_expr service_glyphs <$> [text; image; mixed]
    = [Some "hi"; Some "📷 Image"; Some "see 📷"] ∧
  lastMessage_expr controller_glyphs <$> [text; image; mixed]
    = [Some "hi"; Some "ðŸ“· Image"; Some "see ðŸ“·"].
Proof. done. Qed.

(** ** The scenario of the two users *)

(** The history of u1 with u2 shows the text from u1 first and the image
    from u2 second, each with the [time] at which it was built; and u1 has
    one summary, of two messages, under the empty key. *)
Example two_users_history :
  (MessageService.getMessages id_u1 id_u2 two_users).1
    = Success 200
        {| messages :=
             [ View.mk true (Content.mk (Some "hi") None Text) 10 id_m1;
               View.mk false
                 (Content.mk None (Some "/uploads/img1.png") Image) 20 id_m2 ];
           count := 2 |}.
Proof. by vm_compute. Qed.

Example two_users_conversations :
  summaries (MessageService.getConversations id_u1 two_users).1
    = [ {| Summary._id := VArray [];
           Summary.lastMessage := Some "📷 Image";
           Summary.lastMessageTime := 20;
           Summary.messageCount := 2 |} ].
Proof. by vm_compute. Qed.

(** The removal in the scenario: u1 may not remove the image u2 sent; u2
    may, and the record and the uploaded file are gone. *)
Example two_users_remove :
  MessageService.deleteMessage hex24 id_m2 id_u1 two_users
    = (Failure 403 "You can only delete your own messages", two_users) ∧
  MessageService.deleteMessage hex24 id_m3 id_u1 two_users
    = (Failure 404 "Message not found", two_users) ∧
  (MessageService.deleteMessage hex24 id_m2 id_u2 two_users).1
    = Success 200 "Message deleted successfully" ∧
  ids (MessageService.deleteMessage hex24 id_m2 id_u2 two_users).2 = [id_m1] ∧
  files (MessageService.deleteMessage hex24 id_m2 id_u2 two_users).2 = ∅.
Proof. split_and!; by vm_compute. Qed.

(** * Properties of the rest of the server *)

(** ** The rate limiter *)

Lemma serve_in_window maxRequests windowMs ip times requests c r :
  requests !! ip = Some (RateLimiter.mkEntry c r) →
  Forall (λ now, now ≤ r) times →
  RateLimiter.serve maxRequests windowMs ip times requests
    = (limiter_answer maxRequests <$> seq (S c) (length times),
       <[ip := RateLimiter.mkEntry (c + length times) r]> requests).
Proof.
  revert requests c. induction times as [|now times IH]; intros requests c Hip Hin.
  - simpl. by rewrite Nat.add_0_r, insert_id.
  - apply Forall_cons in Hin as [Hnow Hin]. simpl.
    unfold RateLimiter.rateLimiter. rewrite Hip. simpl.
    destruct (decide (r < now)) as [Hlate|_]; [lia|]. simpl.
    assert (Hserve := IH (<[ip := RateLimiter.mkEntry (S c) r]> requests) (S c)
                       (lookup_insert_eq _ _ _) Hin).
    unfold limiter_answer at 1.
    destruct (decide (maxRequests < S c)%nat);
      rewrite Hserve, insert_insert_eq, Nat.add_succ_r; done.
Qed.

(** X1. Of the requests an address makes within one window, the first is let
    through and the n-th, from the second on, is let through exactly when n
    is at most [maxRequests]; every request is counted, the rejected ones
    too, and the deadline of the window stays where the first request put
    it. *)
Theorem limiter_burst maxRequests windowMs ip t0 times requests :
  requests !! ip = None →
  Forall (λ now, now ≤ t0 + windowMs) times →
  RateLimiter.serve maxRequests windowMs ip (t0 :: times) requests
    = (Next :: (limiter_answer maxRequests <$> seq 2 (length times)),
       <[ip := RateLimiter.mkEntry (S (length times)) (t0 + windowMs)]> requests).
Proof.
  intros Hip Hin. simpl. unfold RateLimiter.rateLimiter at 1. rewrite Hip.
  rewrite (serve_in_window _ _ _ _ _ 1 (t0 + windowMs));
    [|apply lookup_insert_eq|done].
  by rewrite insert_insert_eq.
Qed.

Lemma limiter_burst_witness :
  (∅ : gmap string RateLimiter.Entry) !! "10.0.0.1" = None ∧
  Forall (λ now, now ≤ 0 + 1000) [10; 20; 1000] ∧
  (RateLimiter.serve 2 1000 "10.0.0.1" [0; 10; 20; 1000] ∅).1
    = [Next; Next;
       Respond 429 "Too many requests, please try again later";
       Respond 429 "Too many requests, please try again later"].
Proof.
  assert (Hin : Forall (λ now, now ≤ 0 + 1000) [10; 20; 1000])
    by (apply (bool_decide_unpack _); by vm_compute).
  split_and!; [done|done|].
  by rewrite (limiter_burst 2 1000 "10.0.0.1" 0 [10; 20; 1000] ∅).
Defined.

(** X2. The limiter treats each address on its own: a request changes the
    entry of no other address, and the answer to a request depends on the
    entry of its address alone. *)
Theorem limiter_per_address maxRequests windowMs ip ip' now requests1 requests2 :
  ip ≠ ip' →
  requests1 !! ip = requests2 !! ip →
  (RateLimiter.rateLimiter maxRequests windowMs ip' now requests1).2 !! ip
    = requests1 !! ip ∧
  (RateLimiter.rateLimiter maxRequests windowMs ip now requests1).1
    = (RateLimiter.rateLimiter maxRequests windowMs ip now requests2).1 ∧
  (RateLimiter.rateLimiter maxRequests windowMs ip now requests1).2 !! ip
    = (RateLimiter.rateLimiter maxRequests windowMs ip now requests2).2 !! ip.
Proof.
  intros Hne Hsame. unfold RateLimiter.rateLimiter. split_and!.
  - destruct (requests1 !! ip') as [e|]; simpl.
    + destruct (decide (_ < _)%nat); simpl; by rewrite lookup_insert_ne.
    + by rewrite lookup_insert_ne.
  - rewrite <-Hsame. destruct (requests1 !! ip) as [e|]; simpl; [|done].
    by destruct (decide (_ < _)%nat).
  - rewrite <-Hsame. destruct (requests1 !! ip) as [e|]; simpl.
    + destruct (decide (_ < _)%nat); simpl; by rewrite !lookup_insert_eq.
    + by rewrite !lookup_insert_eq.
Qed.

Lemma limiter_per_address_witness :
  let requests := {[ "10.0.0.1" := RateLimiter.mkEntry 7 500 ]}
                  : gmap string RateLimiter.Entry in
  "10.0.0.1" ≠ "10.0.0.2" ∧
  (RateLimiter.rateLimiter 5 1000 "10.0.0.2" 100 requests).2 !! "10.0.0.1"
    = Some (RateLimiter.mkEntry 7 500).
Proof.
  intros requests. split; [done|].
  destruct (limiter_per_address 5 1000 "10.0.0.1" "10.0.0.2" 100
              requests requests) as (Hkept & _); [done..|].
  rewrite Hkept. apply lookup_singleton_eq.
Defined.

(** X3. A request that comes after the deadline of its address starts a new
    window: the count is 1 again, the deadline is a window from now, and the
    request is let through exactly when [maxRequests] is at least 1. The
    first request ever seen from an address is let through whatever
    [maxRequests] is, also when it is 0. *)
Theorem limiter_new_window maxRequests windowMs ip now requests :
  (requests !! ip = None →
     RateLimiter.rateLimiter maxRequests windowMs ip now requests
       = (Next, <[ip := RateLimiter.mkEntry 1 (now + windowMs)]> requests)) ∧
  (∀ e, requests !! ip = Some e → RateLimiter.resetTime e < now →
     (RateLimiter.rateLimiter maxRequests windowMs ip now requests).2
       = <[ip := RateLimiter.mkEntry 1 (now + windowMs)]> requests ∧
     ((RateLimiter.rateLimiter maxRequests windowMs ip now requests).1 = Next ↔
      (1 ≤ maxRequests)%nat)).
Proof.
  unfold RateLimiter.rateLimiter. split.
  - by intros ->.
  - intros e -> Hlate.
    destruct (decide (RateLimiter.resetTime e < now)) as [_|Hnot]; [|done].
    simpl. destruct (decide (maxRequests < 1)%nat); simpl;
      (split; [done|]); split; intros; (done || lia).
Qed.

(** ** The socket handlers *)

Lemma handle_all_cons {A} (e : Socket.Event A) es onlineUsers :
  Socket.handle_all (e :: es) onlineUsers
    = Socket.handle_all es (Socket.handle e onlineUsers).2.
Proof. done. Qed.

Lemma handle_send_keeps {A} socketId to (msg : A) onlineUsers :
  (Socket.handle (Socket.SendMsg socketId to msg) onlineUsers).2 = onlineUsers.
Proof.
  simpl. destruct (onlineUsers !! to) as [s|]; [|done]. by destruct (falsy s).
Qed.

(** The entry of a user after a run of events is the socket of the user's
    last [add-user] in the run, or what it was before when there is none. *)
Lemma handle_all_lookup {A} (es : list (Socket.Event A)) onlineUsers userId :
  Socket.handle_all es onlineUsers !! userId
    = match Socket.last_added userId es with
      | Some socketId => Some socketId
      | None => onlineUsers !! userId
      end.
Proof.
  revert onlineUsers. induction es as [|e es IH]; intros onlineUsers; [done|].
  rewrite handle_all_cons, IH. simpl.
  destruct (Socket.last_added userId es); [done|].
  destruct e as [socketId userId'|socketId to msg].
  - simpl. destruct (decide (userId' = userId)) as [->|Hne].
    + apply lookup_insert_eq.
    + by apply lookup_insert_ne.
  - by rewrite handle_send_keeps.
Qed.

(** X4. After any run of events from an empty registry, a message for a user
    is emitted to the socket of that user's most recent [add-user] and to no
    other; when the user never sent [add-user] nothing is emitted. *)
Theorem socket_delivers_to_last_added {A} (es : list (Socket.Event A))
    socketId to (msg : A) :
  (Socket.handle (Socket.SendMsg socketId to msg) (Socket.handle_all es ∅)).1
    = match Socket.last_added to es with
      | Some sendUserSocket =>
          if falsy sendUserSocket then None
          else Some (Socket.mkEmit socketId sendUserSocket msg)
      | None => None
      end.
Proof.
  simpl. rewrite handle_all_lookup, lookup_empty.
  destruct (Socket.last_added to es) as [s|]; [|done]. by destruct (falsy s).
Qed.

(** X5. The handlers never take a user out of the registry: a user who is in
    it stays in it through every run of events, so a message for that user
    keeps being emitted to the last socket recorded. *)
Theorem socket_registry_never_forgets {A} (es : list (Socket.Event A))
    onlineUsers userId :
  is_Some (onlineUsers !! userId) →
  is_Some (Socket.handle_all es onlineUsers !! userId).
Proof.
  intros Hin. rewrite handle_all_lookup.
  by destruct (Socket.last_added userId es).
Qed.

Lemma socket_registry_never_forgets_witness :
  let es := [Socket.SendMsg "s2" "u1" "hi"; Socket.AddUser "s2" "u2";
             Socket.SendMsg "s1" "u2" "yo"] in
  is_Some (({[ "u1" := "s1" ]} : gmap string string) !! "u1") ∧
  is_Some (Socket.handle_all es {[ "u1" := "s1" ]} !! "u1").
Proof.
  intros es.
  assert (Hin : is_Some (({[ "u1" := "s1" ]} : gmap string string) !! "u1"))
    by (rewrite lookup_singleton_eq; by eexists).
  split; [done|].
  by apply (socket_registry_never_forgets es).
Defined.

Lemma limiter_new_window_witness :
  let requests := {[ "10.0.0.1" := RateLimiter.mkEntry 9 500 ]}
                  : gmap string RateLimiter.Entry in
  requests !! "10.0.0.1" = Some (RateLimiter.mkEntry 9 500) ∧ 500 < 501 ∧
  (RateLimiter.rateLimiter 0 1000 "10.0.0.1" 501 requests).2
    = <[ "10.0.0.1" := RateLimiter.mkEntry 1 1501 ]> requests ∧
  (RateLimiter.rateLimiter 0 1000 "10.0.0.2" 501 requests).1 = Next.
Proof.
  intros requests.
  assert (Hin : requests !! "10.0.0.1" = Some (RateLimiter.mkEntry 9 500))
    by apply lookup_singleton_eq.
  destruct (limiter_new_window 0 1000 "10.0.0.1" 501 requests) as [_ Hlate].
  destruct (limiter_new_window 0 1000 "10.0.0.2" 501 requests) as [Hfirst _].
  split_and!; [done|lia| |].
  - by apply (Hlate _ Hin).
  - by rewrite Hfirst.
Defined.

(** ** Message statistics *)

Lemma sum_cond_length (c : Msg.t → Prop) `{!∀ m, Decision (c m)} docs :
  sum_cond c docs = length (filter c docs).
Proof.
  unfold sum_cond. induction docs as [|m docs IH]; [done|].
  rewrite filter_cons. csimpl. destruct (decide (c m)); simpl; by rewrite IH.
Qed.

Lemma filter_all {A} (l : list A) : filter (λ _, True) l = l.
Proof.
  induction l as [|x l IH]; [done|]. by rewrite filter_cons_True, IH.
Qed.

(** The statistics of a user are counts over the stored messages that
    mention the user. *)
Lemma stats_of_lengths userId st :
  userId ≠ "" →
  let docs := filter (users_in userId) (Messages st) in
  stats_of userId st
    = {| Stats.totalMessages := length docs;
         Stats.sentMessages :=
           length (filter (λ m, VObjectId (Msg.sender m) = VString userId) docs);
         Stats.receivedMessages :=
           length (filter (λ m, VObjectId (Msg.sender m) ≠ VString userId)
                     docs);
         Stats.imageMessages :=
           length (filter (λ m, Content.type (Msg.message m) ∈ [Image; Mixed])
                     docs) |}.
Proof.
  intros Hu%falsy_false. unfold stats_of, getMessageStats. rewrite Hu. simpl.
  unfold Message_aggregate_stats.
  destruct (filter (users_in userId) (Messages st)) as [|m docs] eqn:Hdocs;
    [done|].
  simpl head. simpl default.
  by rewrite !sum_cond_length, filter_all.
Qed.

(** X6. In the statistics of a user the sent and the received messages add
    up to the total, and the messages with an image are at most the total;
    the total is the number of stored messages that mention the user. *)
Theorem stats_add_up userId st :
  let stats := stats_of userId st in
  (Stats.sentMessages stats + Stats.receivedMessages stats
     = Stats.totalMessages stats)%nat ∧
  (Stats.imageMessages stats ≤ Stats.totalMessages stats)%nat ∧
  (userId ≠ "" →
   Stats.totalMessages stats
     = length (filter (λ m, userId ∈ Msg.users m) (Messages st))).
Proof.
  destruct (decide (userId = "")) as [->|Hne].
  { by vm_compute. }
  simpl. rewrite stats_of_lengths by done. simpl. split_and!.
  - rewrite <-(length_app (filter _ _) (filter _ _)).
    apply Permutation_length, filter_app_complement.
  - apply length_filter.
  - done.
Qed.

(** The groups of a list by a key share out the list. *)
Lemma group_lengths_sum {A K} `{EqDecision K} (key : A → K) (l : list A)
    (ks : list K) :
  NoDup ks →
  sum_list ((λ k, length (filter (λ x, key x = k) l)) <$> ks)
    = length (filter (λ x, key x ∈ ks) l).
Proof.
  induction 1 as [|k ks Hk Hnd IH]; csimpl.
  - symmetry. apply length_zero_iff_nil, elem_of_nil_inv.
    intros x [Hx _]%list_elem_of_filter. by apply elem_of_nil in Hx.
  - rewrite IH. clear IH. induction l as [|x l IHl]; [done|].
    rewrite !filter_cons.
    destruct (decide (key x = k)) as [Heq|Hne],
             (decide (key x ∈ ks)) as [Hin|Hout],
             (decide (key x ∈ k :: ks)) as [Hin'|Hout']; simpl;
      rewrite <-?IHl; try lia; exfalso;
      first [ by (apply Hk; subst k)
            | by (apply Hout', elem_of_cons; left)
            | by (apply Hout', elem_of_cons; right)
            | by (apply elem_of_cons in Hin' as [?|?]) ].
Qed.

Lemma accumulate_counts g userId db (ks : list Value) :
  (∀ k, k ∈ ks → k ∈ group_id userId <$> match_sort_stages userId db) →
  Summary.messageCount <$>
    omap (accumulate g) ((λ k, (k, group_of userId db k)) <$> ks)
  = (λ k, length (group_of userId db k)) <$> ks.
Proof.
  induction ks as [|k ks IH]; intros Hks; [done|]. csimpl.
  assert (k ∈ group_id userId <$> match_sort_stages userId db) as
    (m & Hk & Hm)%list_elem_of_fmap by (apply Hks; by left).
  unfold accumulate at 1. simpl.
  destruct (group_of userId db k) as [|first rest] eqn:Hgroup.
  - assert (m ∈ group_of userId db k) as Hin by (by apply list_elem_of_filter).
    rewrite Hgroup in Hin. by apply elem_of_nil in Hin.
  - simpl. f_equal. apply IH. intros k' Hk'. apply Hks. by right.
Qed.

Lemma aggregate_counts_sum g userId db :
  sum_list (Summary.messageCount <$> Message_aggregate g userId db)
    = length (filter (users_in userId) db).
Proof.
  unfold Message_aggregate, group_stage.
  pose proof (accumulate_counts g userId db
    (remove_dups (group_id userId <$> match_sort_stages userId db))) as Hcounts.
  unfold group_of in Hcounts.
  rewrite Hcounts by (intros k; by rewrite elem_of_remove_dups).
  rewrite (group_lengths_sum (group_id userId)) by apply NoDup_remove_dups.
  rewrite (filter_agree _ (λ _, True)), filter_all.
  - unfold match_sort_stages. by rewrite merge_sort_Permutation.
  - intros m Hm. split; [done|]. intros _.
    apply elem_of_remove_dups, list_elem_of_fmap. by exists m.
Qed.

(** X7. The message counts of the conversations of a user add up to the
    total of the user's statistics: every message of the user is counted in
    exactly one conversation. *)
Theorem conversation_counts_sum_to_total userId st :
  sum_list (Summary.messageCount <$>
              summaries (MessageService.getConversations userId st).1)
    = Stats.totalMessages (stats_of userId st).
Proof.
  destruct (decide (userId = "")) as [->|Hne]; [done|].
  rewrite service_summaries, stats_of_lengths by done. simpl.
  apply aggregate_counts_sum.
Qed.

Lemma messageContent_has_image text imageFile :
  Content.type (messageContent text imageFile) ∈ [Image; Mixed] ↔
  is_Some imageFile.
Proof.
  unfold messageContent. destruct imageFile as [f|]; simpl.
  - split; [by eexists|]. intros _.
    destruct (negb (falsy_opt text)); simpl;
      [right; left | left].
  - split; [|by intros [? ?]].
    intros [?|[?|?%elem_of_nil]%elem_of_cons]%elem_of_cons; done.
Qed.

(** X8. A send that succeeds moves the statistics by that one message: the
    total of the sender and of the recipient goes up by one and nobody
    else's total moves. Their count of received messages goes up with it
    and nobody's count of sent messages moves, which stays 0: the pipeline
    compares the stored [ObjectId] of the sender with the string of the
    caller, and so takes every message for a received one. When a file came
    with the message, the image count of the two goes up by one. *)
Theorem send_updates_stats cast oid built saved senderId to text imageFile
    st st' u :
  (∃ c m,
     MessageService.createMessage cast oid built saved senderId to text
       imageFile st = (Success c m, st')) ∨
  (∃ c s,
     MessageController.addMessage cast oid built saved (Verified senderId) to
       text imageFile st = (Success c s, st')) →
  u ≠ "" →
  (Stats.totalMessages (stats_of u st')
     = Stats.totalMessages (stats_of u st)
       + (if decide (u = senderId ∨ u = to) then 1 else 0))%nat ∧
  Stats.sentMessages (stats_of u st') = 0%nat ∧
  Stats.sentMessages (stats_of u st) = 0%nat ∧
  (Stats.receivedMessages (stats_of u st')
     = Stats.receivedMessages (stats_of u st)
       + (if decide (u = senderId ∨ u = to) then 1 else 0))%nat ∧
  (Stats.imageMessages (stats_of u st')
     = Stats.imageMessages (stats_of u st)
       + (if decide ((u = senderId ∨ u = to) ∧ is_Some imageFile)
          then 1 else 0))%nat.
Proof.
  intros Hsent Hu.
  assert (∃ sender,
            Messages st' = Messages st ++
              [new_document oid sender built saved
                 {| doc_message := messageContent text imageFile;
                    doc_users := [senderId; to];
                    doc_sender := senderId |}]) as [sender Hst'].
  { destruct Hsent as [(c & m & Hsent)|(c & s & Hsent)].
    - apply service_create_Success in Hsent
        as (sender & _ & _ & _ & _ & _ & -> & ->).
      by exists sender.
    - apply controller_add_Success in Hsent
        as (sender & m & _ & _ & _ & _ & _ & -> & _ & ->).
      by exists sender. }
  assert (Hnone : ∀ docs : list Msg.t,
            filter (λ m, VObjectId (Msg.sender m) = VString u) docs = []).
  { intros docs. apply elem_of_nil_inv. by intros m [? _]%list_elem_of_filter. }
  assert (Hevery : ∀ docs : list Msg.t,
            filter (λ m, VObjectId (Msg.sender m) ≠ VString u) docs = docs).
  { intros docs. induction docs as [|m docs IH]; [done|].
    by rewrite filter_cons_True, IH. }
  rewrite !stats_of_lengths by done. simpl. rewrite Hst', !Hnone, !Hevery.
  set (m := new_document _ _ _ _ _).
  assert (users_in u m ↔ u = senderId ∨ u = to) as Hin.
  { unfold users_in. simpl. rewrite elem_of_cons, list_elem_of_singleton. done. }
  rewrite filter_app.
  destruct (decide (u = senderId ∨ u = to)) as [Hpart|Hnot].
  - rewrite (filter_cons_True _ m []) by (by apply Hin).
    rewrite filter_nil, !filter_app, !length_app.
    split_and!; [done..|]. f_equal. rewrite filter_cons, filter_nil.
    destruct (decide (Content.type (Msg.message m) ∈ [Image; Mixed]))
      as [Himg|Himg], (decide ((u = senderId ∨ u = to) ∧ is_Some imageFile))
      as [[_ Hfile]|Hno]; simpl; try done; exfalso;
      pose proof (messageContent_has_image text imageFile) as Himage;
      simpl in Himg; tauto.
  - rewrite (filter_cons_False _ m []) by (by rewrite Hin).
    rewrite filter_nil, app_nil_r.
    rewrite !(decide_False (P := _ ∧ is_Some _)) by (by intros [? _]).
    by rewrite !Nat.add_0_r.
Qed.

Lemma send_updates_stats_witness :
  let st' := (MessageService.createMessage hex24 id_m3 30 31 id_u1 id_u2
                (Some "yo") (Some (mkFile "b.png")) two_users).2 in
  id_u1 ≠ "" ∧
  Stats.totalMessages (stats_of id_u1 two_users) = 2%nat ∧
  Stats.totalMessages (stats_of id_u1 st') = 3%nat ∧
  Stats.sentMessages (stats_of id_u1 st') = 0%nat ∧
  Stats.receivedMessages (stats_of id_u1 st') = 3%nat.
Proof.
  intros st'.
  destruct (send_updates_stats hex24 id_m3 30 31 id_u1 id_u2 (Some "yo")
              (Some (mkFile "b.png")) two_users st' id_u1)
    as (Htotal & Hsent & _ & Hreceived & _); [left; by eexists _, _ | done |].
  split_and!; [done|by vm_compute| |done|].
  - rewrite Htotal. by vm_compute.
  - rewrite Hreceived. by vm_compute.
Defined.

(** ** Tokens *)

Lemma starts_with_app p t : starts_with p (p +:+ t) = true.
Proof. induction p as [|a p IH]; [done|]. simpl. by rewrite decide_True. Qed.

Lemma drop_chars_app p t : drop_chars (String.length p) (p +:+ t) = t.
Proof. induction p as [|a p IH]; [by destruct t|]. done. Qed.

Lemma remove_first_prefix p t : remove_first p (p +:+ t) = t.
Proof.
  destruct (p +:+ t) as [|c s] eqn:Heq; simpl.
  - rewrite <-Heq, starts_with_app, drop_chars_app.
    by destruct p, t.
  - rewrite <-Heq, starts_with_app. apply drop_chars_app.
Qed.

Lemma starts_with_inv p s : starts_with p s = true → ∃ t, s = p +:+ t.
Proof.
  revert s. induction p as [|a p IH]; intros s; [by exists s|].
  destruct s as [|b s]; [done|]. simpl.
  destruct (decide (a = b)) as [->|]; [|done].
  intros [t ->]%IH. by exists t.
Qed.

Lemma no_space_not_Bearer s :
  no_space s = true → starts_with "Bearer " s = false.
Proof.
  intros Hs. destruct (starts_with "Bearer " s) eqn:Hp; [|done].
  apply starts_with_inv in Hp as [t ->]. done.
Qed.

Lemma remove_first_no_space s :
  no_space s = true → remove_first "Bearer " s = s.
Proof.
  induction s as [|c s IH]; [done|]. intros Hs.
  change (remove_first "Bearer " (String c s))
    with (if starts_with "Bearer " (String c s)
          then drop_chars (String.length "Bearer ") (String c s)
          else String c (remove_first "Bearer " s)).
  rewrite no_space_not_Bearer by done. f_equal. apply IH.
  simpl in Hs. by destruct (decide (c = " "%char)).
Qed.

Lemma extractTokenFromHeader_Bearer token :
  AuthService.extractTokenFromHeader (Some ("Bearer " +:+ token)) = Some token.
Proof.
  unfold AuthService.extractTokenFromHeader.
  by rewrite starts_with_app, remove_first_prefix.
Qed.

(** X9. Both readers of the [Authorization] header give back the token that
    was put behind ["Bearer "]: [extractTokenFromHeader] and the prologue of
    the message handlers, which then authenticates as [jwt.verify] says. *)
Theorem bearer_round_trip libs token :
  AuthService.extractTokenFromHeader (Some ("Bearer " +:+ token)) = Some token ∧
  remove_first "Bearer " ("Bearer " +:+ token) = token ∧
  (∀ userId, token ≠ "" → Libs.verify libs token = Decoded userId →
     request_auth libs (Some ("Bearer " +:+ token)) = inl (Verified userId)).
Proof.
  assert (remove_first "Bearer " ("Bearer " +:+ token) = token) as Hremove
    by apply remove_first_prefix.
  split_and!; [|done|].
  - apply extractTokenFromHeader_Bearer.
  - intros userId Hne%falsy_false Hverify. unfold request_auth.
    cbn [fmap option_fmap option_map]. rewrite Hremove, Hne, Hverify. done.
Qed.

(** X10. A header that is the bare token, without ["Bearer "], is refused by
    [extractTokenFromHeader], so the routes behind [authenticateToken]
    answer 401, and is accepted by the message handlers, which take the
    whole header for the token. *)
Theorem bare_token_accepted_by_message_handlers libs header userId users :
  header ≠ "" → no_space header = true →
  Libs.verify libs header = Decoded userId →
  AuthService.extractTokenFromHeader (Some header) = None ∧
  authenticateToken libs (Some header) users
    = inr (Respond 401 "Access token required") ∧
  request_auth libs (Some header) = inl (Verified userId).
Proof.
  intros Hne%falsy_false Hspace Hverify.
  assert (AuthService.extractTokenFromHeader (Some header) = None) as Hnone.
  { unfold AuthService.extractTokenFromHeader.
    by rewrite Hne, no_space_not_Bearer. }
  split_and!; [done| |].
  - unfold authenticateToken, AuthService.authenticateUser. by rewrite Hnone.
  - unfold request_auth. cbn [fmap option_fmap option_map].
    by rewrite remove_first_no_space, Hne, Hverify.
Qed.

Lemma bare_token_accepted_by_message_handlers_witness :
  "jwt.u1" ≠ "" ∧ no_space "jwt.u1" = true ∧
  Libs.verify toy_libs "jwt.u1" = Decoded "u1" ∧
  authenticateToken toy_libs (Some "jwt.u1") []
    = inr (Respond 401 "Access token required") ∧
  request_auth toy_libs (Some "jwt.u1") = inl (Verified "u1").
Proof.
  split_and!; [done..| |];
    apply (bare_token_accepted_by_message_handlers toy_libs "jwt.u1" "u1" []);
    done.
Defined.

(** X11. A token whose verification throws anything but a
    [JsonWebTokenError], an expired token for one: [authenticateToken]
    answers 401 with the message of the exception (and [verifyToken] labels
    it [TOKEN_EXPIRED]), while a message handler passes the exception to
    [next], where [errorHandler] answers 500. *)
Theorem expired_token_401_or_500 libs token ex users :
  token ≠ "" → Libs.verify libs token = JwtThrows ex →
  Thrown.name ex = "TokenExpiredError" → Thrown.code ex = None →
  AuthService.verifyToken libs token
    = AuthService.TokenFailure (Thrown.message ex) "TOKEN_EXPIRED" ∧
  authenticateToken libs (Some ("Bearer " +:+ token)) users
    = inr (Respond 401 (Thrown.message ex)) ∧
  request_auth libs (Some ("Bearer " +:+ token)) = inr ex ∧
  errorHandler ex = Respond 500 "Internal server error".
Proof.
  intros Hne%falsy_false Hverify Hname Hcode.
  assert (AuthService.verifyToken libs token
            = AuthService.TokenFailure (Thrown.message ex) "TOKEN_EXPIRED")
    as Htoken.
  { unfold AuthService.verifyToken. by rewrite Hne, Hverify, Hname. }
  split_and!; [done| | |].
  - unfold authenticateToken, AuthService.authenticateUser.
    by rewrite extractTokenFromHeader_Bearer, Hne, Htoken.
  - unfold request_auth. cbn [fmap option_fmap option_map].
    by rewrite remove_first_prefix, Hne, Hverify, Hname.
  - unfold errorHandler. by rewrite Hname, Hcode.
Qed.

Lemma expired_token_401_or_500_witness :
  let ex := Thrown.mk "TokenExpiredError" "jwt expired" None in
  let libs := Libs.mk (Libs.hash toy_libs) (Libs.compare toy_libs)
                (Libs.sign toy_libs) (λ _, JwtThrows ex) in
  "t" ≠ "" ∧ Libs.verify libs "t" = JwtThrows ex ∧
  authenticateToken libs (Some "Bearer t") []
    = inr (Respond 401 "jwt expired") ∧
  request_auth libs (Some "Bearer t") = inr ex ∧
  errorHandler ex = Respond 500 "Internal server error".
Proof.
  intros ex libs.
  split_and!; [done|done|..];
    apply (expired_token_401_or_500 libs "t" ex []); done.
Defined.

(** ** Validation of a body *)

Lemma validateRequest_Next requiredFields body :
  validateRequest requiredFields body = Next ↔
  ∀ key, key ∈ requiredFields → ∃ v, body !! key = Some v ∧ v ≠ "".
Proof.
  unfold validateRequest.
  destruct (filter _ requiredFields) as [|key missing] eqn:Hmissing; simpl.
  - split; [intros _|done]. intros key Hkey.
    destruct (body !! key) as [v|] eqn:Hv.
    + exists v. split; [done|]. intros ->.
      assert (key ∈ @nil string) as Hin; [|by apply elem_of_nil in Hin].
      rewrite <-Hmissing. apply list_elem_of_filter. by rewrite Hv.
    + assert (key ∈ @nil string) as Hin; [|by apply elem_of_nil in Hin].
      rewrite <-Hmissing. apply list_elem_of_filter. by rewrite Hv.
  - split; [done|]. intros Hall.
    assert (key ∈ filter (λ field0, falsy_opt (body !! field0) = true)
                    requiredFields) as [Hfalsy Hkey]%list_elem_of_filter
      by (rewrite Hmissing; by left).
    destruct (Hall key Hkey) as (v & Hv & Hne). rewrite Hv in Hfalsy.
    simpl in Hfalsy. by apply falsy_true in Hfalsy.
Qed.

(** X12. On the register and login routes the guard of the service never
    answers: a body that lacks a field, or holds an empty one, is stopped by
    [validateRequest] before the service runs and the users are left alone,
    and a body that passes holds what the service requires. *)
Theorem routes_validate_before_service libs defaults oid salt body users :
  (register_route libs defaults oid salt body users).1
    ≠ inr (Failure 400 "Username, email, and password are required") ∧
  (login_route libs body users).1
    ≠ inr (Failure 400 "Username and password are required") ∧
  (validateRequest ["username"; "email"; "password"] body ≠ Next →
   (register_route libs defaults oid salt body users).2 = users ∧
   ∃ status msg,
     (register_route libs defaults oid salt body users).1
       = inl (Respond status msg)).
Proof.
  assert (Hfield : ∀ fields key,
    validateRequest fields body = Next → key ∈ fields →
    falsy (field body key) = false).
  { intros fields key Hnext Hkey.
    destruct (proj1 (validateRequest_Next fields body) Hnext key Hkey)
      as (v & Hv & Hne).
    unfold field. rewrite Hv. by apply falsy_false. }
  unfold register_route, login_route. split_and!.
  - destruct (validateRequest _ body) eqn:Hvalid; [|done].
    unfold UserService.registerUser.
    rewrite !(Hfield _ _ Hvalid) by (apply (bool_decide_unpack _); by vm_compute).
    simpl. repeat case_match; simplify_eq/=; done.
  - destruct (validateRequest _ body) eqn:Hvalid; [|done].
    unfold UserService.loginUser.
    rewrite !(Hfield _ _ Hvalid) by (apply (bool_decide_unpack _); by vm_compute).
    simpl. repeat case_match; simplify_eq/=; done.
  - intros Hstop. destruct (validateRequest _ body); [done|]. eauto.
Qed.

(** ** Users *)

Lemma User_findOne_cons (q : User.t → Prop) `{!∀ u, Decision (q u)} u users :
  User_findOne q (u :: users)
  = if decide (q u) then Some u else User_findOne q users.
Proof.
  unfold User_findOne. simpl. destruct (decide (q u)); [done|].
  by destruct (list_find q users) as [[i v]|].
Qed.

Lemma User_findOne_Some (q : User.t → Prop) `{!∀ u, Decision (q u)} users u :
  User_findOne q users = Some u → u ∈ users ∧ q u.
Proof.
  induction users as [|v users IH]; [done|]. rewrite User_findOne_cons.
  destruct (decide (q v)).
  - intros [= ->]. split; [by left|done].
  - intros [Hin Hq]%IH. split; [by right|done].
Qed.

Lemma User_findOne_None (q : User.t → Prop) `{!∀ u, Decision (q u)} users :
  User_findOne q users = None ↔ ∀ u, u ∈ users → ¬ q u.
Proof.
  induction users as [|v users IH].
  - split; [|done]. by intros _ u ?%elem_of_nil.
  - rewrite User_findOne_cons. destruct (decide (q v)) as [Hq|Hq].
    + split; [done|]. intros Hall. destruct (Hall v); [by left|done].
    + rewrite IH. split.
      * intros Hall u [->|Hin]%elem_of_cons; [done|by apply Hall].
      * intros Hall u Hin. apply Hall. by right.
Qed.

Lemma User_findOne_snoc (q : User.t → Prop) `{!∀ u, Decision (q u)} users u :
  User_findOne q users = None → q u → User_findOne q (users ++ [u]) = Some u.
Proof.
  induction users as [|v users IH]; intros Hnone Hq.
  - rewrite app_nil_l, User_findOne_cons. by rewrite decide_True.
  - rewrite <-app_comm_cons, User_findOne_cons.
    rewrite User_findOne_cons in Hnone.
    destruct (decide (q v)); [done|]. by apply IH.
Qed.

Lemma User_findOne_unique (f : User.t → string) users u :
  NoDup (f <$> users) → u ∈ users →
  User_findOne (λ v, f v = f u) users = Some u.
Proof.
  induction users as [|v users IH]; [by intros _ ?%elem_of_nil|].
  rewrite fmap_cons, NoDup_cons. intros [Hv Hnodup] Hin.
  rewrite User_findOne_cons. apply elem_of_cons in Hin as [->|Hin].
  - by rewrite decide_True.
  - destruct (decide (f v = f u)) as [Heq|]; [|by apply IH].
    destruct Hv. rewrite Heq. apply list_elem_of_fmap. by exists u.
Qed.

Lemma User_findById_Some id users u :
  User_findById id users = Some u → u ∈ users ∧ User._id u = id.
Proof. apply User_findOne_Some. Qed.

Lemma update_fmap_same (f : User.t → string) id update users :
  (∀ u, f (update u) = f u) →
  f <$> User_findByIdAndUpdate id update users = f <$> users.
Proof.
  intros Hsame. induction users as [|u users IH]; [done|].
  cbn [User_findByIdAndUpdate].
  destruct (decide (User._id u = id)); rewrite !fmap_cons;
    [by rewrite Hsame|by rewrite IH].
Qed.

Lemma update_elem_of id update users x :
  x ∈ User_findByIdAndUpdate id update users →
  x ∈ users ∨ ∃ w, w ∈ users ∧ User._id w = id ∧ x = update w.
Proof.
  induction users as [|u users IH]; [by left|]. cbn [User_findByIdAndUpdate].
  destruct (decide (User._id u = id)) as [Hid|Hid].
  - intros [->|Hin]%elem_of_cons.
    + right. exists u. split; [by left|done].
    + left. by right.
  - intros [->|Hin]%elem_of_cons; [left; by left|].
    destruct (IH Hin) as [?|(w & ? & ? & ?)].
    + left. by right.
    + right. exists w. split; [by right|done].
Qed.

Lemma update_NoDup (f : User.t → string) id update users :
  NoDup (User._id <$> users) → NoDup (f <$> users) →
  (∀ u v, u ∈ users → v ∈ users → User._id u = id → User._id v ≠ id →
          f (update u) ≠ f v) →
  NoDup (f <$> User_findByIdAndUpdate id update users).
Proof.
  induction users as [|u users IH]; [done|].
  rewrite !fmap_cons, !NoDup_cons. intros [Hid Hids] [Hf Hfs] Hnew.
  cbn [User_findByIdAndUpdate].
  destruct (decide (User._id u = id)) as [Hu|Hu].
  - rewrite fmap_cons, NoDup_cons. split; [|done].
    intros (v & Heq & Hv)%list_elem_of_fmap.
    apply (Hnew u v); [by left|by right|done| |done].
    intros Hvid. apply Hid, list_elem_of_fmap. exists v. by rewrite Hvid.
  - rewrite fmap_cons, NoDup_cons. split.
    + intros (x & Heq & Hx)%list_elem_of_fmap.
      apply update_elem_of in Hx as [Hx|(w & Hw & Hwid & ->)].
      * apply Hf, list_elem_of_fmap. by exists x.
      * apply (Hnew w u); [by right|by left|done|done|done].
    + apply IH; [done..|]. intros v w Hv Hw. apply Hnew; by right.
Qed.

Lemma update_findById id update users :
  (∀ u, User._id (update u) = User._id u) →
  User_findById id (User_findByIdAndUpdate id update users)
  = update <$> User_findById id users.
Proof.
  intros Hid. unfold User_findById.
  induction users as [|u users IH]; [done|]. cbn [User_findByIdAndUpdate].
  destruct (decide (User._id u = id)) as [Hu|Hu].
  - rewrite !User_findOne_cons, !decide_True; [done..|by rewrite Hid].
  - by rewrite !User_findOne_cons, !decide_False.
Qed.


Lemma delete_sublist id users : User_findByIdAndDelete id users `sublist_of` users.
Proof.
  induction users as [|u users IH]; [done|]. cbn [User_findByIdAndDelete].
  destruct (decide (User._id u = id)).
  - by apply sublist_cons.
  - by apply sublist_skip.
Qed.



Lemma NoDup_fmap_eq (f : User.t → string) users u v :
  NoDup (f <$> users) → u ∈ users → v ∈ users → f u = f v → u = v.
Proof.
  induction users as [|w users IH]; [by intros _ ?%elem_of_nil|].
  rewrite fmap_cons, NoDup_cons. intros [Hw Hnodup].
  intros [->|Hu]%elem_of_cons [->|Hv]%elem_of_cons Heq; [done| | |by apply IH].
  - destruct Hw. rewrite Heq. apply list_elem_of_fmap. by exists v.
  - destruct Hw. rewrite <-Heq. apply list_elem_of_fmap. by exists u.
Qed.

Lemma users_distinct_nil : users_distinct [].
Proof. repeat split; constructor. Qed.

Lemma registerUser_success libs defaults oid salt username email password
    users view token users' :
  UserService.registerUser libs defaults oid salt username email password users
    = (Success 201 (view, token), users') →
  let user := User.mk oid username email (Libs.hash libs salt password)
                (default_avatarImage defaults)
                (default_isAvatarImageSet defaults) in
  username ≠ "" ∧ email ≠ "" ∧ password ≠ "" ∧
  User_findOne (λ u, User.username u = username) users = None ∧
  User_findOne (λ u, User.email u = email) users = None ∧
  view = userResponse user ∧ token = Libs.sign libs oid ∧
  users' = users ++ [user].
Proof.
  unfold UserService.registerUser.
  destruct (falsy username) eqn:Hu; [done|].
  destruct (falsy email) eqn:He; [done|].
  destruct (falsy password) eqn:Hp; [done|]. simpl.
  destruct (User_findOne _ users) eqn:Hname; [done|].
  destruct (User_findOne _ users) eqn:Hmail in |- *; [done|].
  intros [= <- <- <-]. by rewrite <-!falsy_false.
Qed.

Lemma registerUser_distinct libs defaults oid salt username email password users :
  oid ∉ (User._id <$> users) → users_distinct users →
  users_distinct
    (UserService.registerUser libs defaults oid salt username email password
       users).2.
Proof.
  intros Hoid (Hids & Hnames & Hmails).
  destruct (UserService.registerUser libs defaults oid salt username email
              password users) as [[code [view token]|code err|name] users']
    eqn:Hr.
  2, 3: (unfold UserService.registerUser in Hr;
         repeat case_match; simplify_eq/=; done).
  assert (code = 201%nat) as ->.
  { unfold UserService.registerUser in Hr.
    repeat case_match; simplify_eq/=; done. }
  apply registerUser_success in Hr
    as (_ & _ & _ & Hname & Hmail & _ & _ & ->). simpl.
  repeat split; rewrite fmap_app; apply NoDup_app; (split; [done|]);
    (split; [|apply NoDup_singleton]); simpl.
  - intros x Hx ->%list_elem_of_singleton. done.
  - intros x (u & -> & Hu)%list_elem_of_fmap Heq%list_elem_of_singleton.
    by apply (proj1 (User_findOne_None _ _) Hname u).
  - intros x (u & -> & Hu)%list_elem_of_fmap Heq%list_elem_of_singleton.
    by apply (proj1 (User_findOne_None _ _) Hmail u).
Qed.

Lemma updateUserProfile_distinct userId username email users :
  users_distinct users →
  users_distinct (UserService.updateUserProfile userId username email users).2.
Proof.
  intros (Hids & Hnames & Hmails). unfold UserService.updateUserProfile.
  destruct (falsy userId); [done|].
  destruct (negb (falsy username) && _) eqn:Hname; [done|].
  destruct (negb (falsy email) && _) eqn:Hmail; [done|].
  cbv zeta.
  match goal with
  | |- users_distinct (match ?o with None => (_, ?l) | Some _ => _ end).2 =>
      cut (users_distinct l); [by destruct o|]
  end.
  split_and!.
  - by rewrite update_fmap_same.
  - apply update_NoDup; [done..|]. intros u v Hu Hv Huid Hvid. simpl.
    destruct (falsy username) eqn:Hfalsy.
    + intros Heq. apply Hvid. rewrite <-Huid. f_equal.
      symmetry. by apply (NoDup_fmap_eq User.username users).
    + simpl in Hname. apply bool_decide_eq_false in Hname.
      intros Heq. apply Hname.
      destruct (User_findOne _ users) eqn:Hfind in |- *; [done|].
      destruct (proj1 (User_findOne_None _ _) Hfind v Hv). done.
  - apply update_NoDup; [done..|]. intros u v Hu Hv Huid Hvid. simpl.
    destruct (falsy email) eqn:Hfalsy.
    + intros Heq. apply Hvid. rewrite <-Huid. f_equal.
      symmetry. by apply (NoDup_fmap_eq User.email users).
    + simpl in Hmail. apply bool_decide_eq_false in Hmail.
      intros Heq. apply Hmail.
      destruct (User_findOne _ users) eqn:Hfind in |- *; [done|].
      destruct (proj1 (User_findOne_None _ _) Hfind v Hv). done.
Qed.

Lemma update_elem_of_NoDup id update users x :
  NoDup (User._id <$> users) →
  x ∈ User_findByIdAndUpdate id update users →
  (x ∈ users ∧ User._id x ≠ id) ∨
  ∃ w, w ∈ users ∧ User._id w = id ∧ x = update w.
Proof.
  induction users as [|u users IH]; [by intros _ ?%elem_of_nil|].
  rewrite fmap_cons, NoDup_cons. intros [Hid Hids].
  cbn [User_findByIdAndUpdate].
  destruct (decide (User._id u = id)) as [Hu|Hu].
  - intros [->|Hin]%elem_of_cons.
    + right. exists u. split; [by left|done].
    + left. split; [by right|]. intros Hx. apply Hid, list_elem_of_fmap.
      exists x. by rewrite Hx.
  - intros [->|Hin]%elem_of_cons; [left; split; [by left|done]|].
    destruct (IH Hids Hin) as [[? ?]|(w & ? & ? & ?)].
    + left. split; [by right|done].
    + right. exists w. split; [by right|done].
Qed.

Lemma update_distinct_same id update users :
  (∀ u, User._id (update u) = User._id u) →
  (∀ u, User.username (update u) = User.username u) →
  (∀ u, User.email (update u) = User.email u) →
  users_distinct users →
  users_distinct (User_findByIdAndUpdate id update users).
Proof.
  intros ??? (? & ? & ?). unfold users_distinct.
  by rewrite !update_fmap_same.
Qed.

Lemma update_named id update users :
  (∀ u, User._id u ≠ "" ∧ User.username u ≠ "" ∧ User.email u ≠ "" →
        User._id (update u) ≠ "" ∧ User.username (update u) ≠ "" ∧
        User.email (update u) ≠ "") →
  users_named users → users_named (User_findByIdAndUpdate id update users).
Proof.
  intros Hupdate. unfold users_named.
  induction users as [|u users IH]; [done|].
  rewrite Forall_cons. intros [Hu Husers]. cbn [User_findByIdAndUpdate].
  destruct (decide (User._id u = id)); apply Forall_cons; auto.
Qed.

Lemma delete_distinct id users :
  users_distinct users → users_distinct (User_findByIdAndDelete id users).
Proof.
  intros (Hids & Hnames & Hmails).
  split_and!;
    [apply (sublist_NoDup _ _ Hids) | apply (sublist_NoDup _ _ Hnames)
    | apply (sublist_NoDup _ _ Hmails)];
    apply fmap_sublist, delete_sublist.
Qed.

Lemma delete_named id users :
  users_named users → users_named (User_findByIdAndDelete id users).
Proof.
  unfold users_named. rewrite !Forall_forall. intros Hall u Hu.
  apply Hall. eapply elem_of_sublist; [done|apply delete_sublist].
Qed.

Lemma registerUser_named libs defaults oid salt username email password users :
  oid ≠ "" → users_named users →
  users_named
    (UserService.registerUser libs defaults oid salt username email password
       users).2.
Proof.
  intros Hoid Hnamed. unfold UserService.registerUser.
  destruct (falsy username) eqn:Hu; [done|].
  destruct (falsy email) eqn:He; [done|].
  destruct (falsy password) eqn:Hp; [done|]. simpl.
  destruct (User_findOne _ users); [done|].
  destruct (User_findOne _ users); [done|]. simpl.
  apply Forall_app. split; [done|]. apply Forall_singleton. simpl.
  split_and!; [done|by apply falsy_false..].
Qed.

Lemma updateUserProfile_named userId username email users :
  users_named users →
  users_named (UserService.updateUserProfile userId username email users).2.
Proof.
  intros Hnamed. unfold UserService.updateUserProfile.
  destruct (falsy userId); [done|].
  destruct (negb (falsy username) && _); [done|].
  destruct (negb (falsy email) && _); [done|].
  cbv zeta.
  match goal with
  | |- users_named (match ?o with None => (_, ?l) | Some _ => _ end).2 =>
      cut (users_named l); [by destruct o|]
  end.
  apply update_named; [|done]. intros u (? & ? & ?). simpl.
  split_and!; [done|..].
  - destruct (falsy username) eqn:Hfalsy; [done|by apply falsy_false].
  - destruct (falsy email) eqn:Hfalsy; [done|by apply falsy_false].
Qed.

Lemma run_user_inv libs defaults c users :
  user_call_allowed c users →
  users_distinct users ∧ users_named users →
  users_distinct (run_user libs defaults c users) ∧
  users_named (run_user libs defaults c users).
Proof.
  intros Hallowed [Hdistinct Hnamed]. destruct c; simpl.
  - destruct Hallowed as [Hoid Hfresh].
    split; [by apply registerUser_distinct|by apply registerUser_named].
  - split; [by apply updateUserProfile_distinct|by apply updateUserProfile_named].
  - unfold UserService.changePassword.
    repeat case_match; simpl; try done.
    split; [by apply update_distinct_same|by apply update_named].
  - unfold UserService.deleteAccount.
    repeat case_match; simpl; try done.
    split; [by apply delete_distinct|by apply delete_named].
  - unfold UserService.setAvatar.
    destruct (falsy userId || falsy avatarImage); [done|]. cbv zeta.
    match goal with
    | |- users_distinct (match ?o with None => (_, ?l) | Some _ => _ end).2 ∧ _ =>
        cut (users_distinct l ∧ users_named l); [by destruct o|]
    end.
    split; [by apply update_distinct_same|by apply update_named].
Qed.

(** X13. Whatever calls of register, update, change of password, deletion
    and avatar have run: no two users share an id, a name or an address, and
    every user has all three. The services keep this themselves, by their
    look-ups before they write. *)
Theorem users_stay_distinct libs defaults users :
  reachable_users libs defaults users →
  users_distinct users ∧ users_named users.
Proof.
  induction 1 as [|users c Hreach IH Hallowed].
  - split; [apply users_distinct_nil|constructor].
  - by apply run_user_inv.
Qed.

Lemma users_stay_distinct_witness :
  reachable_users toy_libs toy_defaults [ann; bob] ∧
  users_distinct [ann; bob] ∧ users_named [ann; bob].
Proof.
  assert (reachable_users toy_libs toy_defaults [ann; bob]) as Hreach.
  { change [ann; bob] with
      (run_user toy_libs toy_defaults
         (Register "u2" "s2" "bob" "bob@x.org" "pw2")
         (run_user toy_libs toy_defaults
            (Register "u1" "s1" "ann" "ann@x.org" "pw1") [])).
    apply reachable_users_run; [apply reachable_users_run|].
    - apply reachable_users_init.
    - split; [done|apply not_elem_of_nil].
    - split; [done|]. apply (bool_decide_unpack _). by vm_compute. }
  split; [done|]. by apply (users_stay_distinct toy_libs toy_defaults).
Defined.

(** X14. Who has registered can log in: after a successful [registerUser],
    [loginUser] with the same name and password succeeds and shows the same
    user, given that [bcrypt.compare] accepts a password against its own
    hash. *)
Theorem register_then_login libs defaults oid salt username email password
    users view token users' :
  (∀ s p, Libs.compare libs p (Libs.hash libs s p) = true) →
  UserService.registerUser libs defaults oid salt username email password users
    = (Success 201 (view, token), users') →
  ∃ token',
    UserService.loginUser libs username password users'
    = (Success 200 (view, token'), users').
Proof.
  intros Hcompare
    (Hu & _ & Hp & Hname & _ & -> & _ & ->)%registerUser_success.
  unfold UserService.loginUser.
  rewrite (proj2 (falsy_false _) Hu), (proj2 (falsy_false _) Hp). simpl.
  rewrite (User_findOne_snoc _ users
             (User.mk oid username email (Libs.hash libs salt password)
                (default_avatarImage defaults)
                (default_isAvatarImageSet defaults)) Hname eq_refl).
  simpl. rewrite Hcompare. simpl. eauto.
Qed.

Lemma register_then_login_witness :
  (∀ s p, Libs.compare toy_libs p (Libs.hash toy_libs s p) = true) ∧
  UserService.registerUser toy_libs toy_defaults "u2" "s2" "bob" "bob@x.org"
    "pw2" [ann]
    = (Success 201 (userResponse bob, "jwt.u2"), [ann; bob]) ∧
  ∃ token',
    UserService.loginUser toy_libs "bob" "pw2" [ann; bob]
    = (Success 200 (userResponse bob, token'), [ann; bob]).
Proof.
  assert (∀ s p, Libs.compare toy_libs p (Libs.hash toy_libs s p) = true)
    as Hcompare by (intros s p; by apply bool_decide_eq_true).
  split_and!; [done|done|].
  by apply (register_then_login toy_libs toy_defaults "u2" "s2" "bob"
              "bob@x.org" "pw2" [ann] (userResponse bob) "jwt.u2" [ann; bob]).
Defined.

(** X15. [loginUser] never writes, and with a name and a password it has two
    outcomes only: success for the user of that name whose stored hash the
    password matches, or one and the same 401, whether the name is unknown
    or the password wrong. *)
Theorem login_outcomes libs username password users :
  username ≠ "" → password ≠ "" →
  (UserService.loginUser libs username password users).2 = users ∧
  ((UserService.loginUser libs username password users).1
     = Failure 401 "Invalid username or password" ∨
   ∃ u, u ∈ users ∧ User.username u = username ∧
        Libs.compare libs password (User.password u) = true ∧
        (UserService.loginUser libs username password users).1
          = Success 200 (userResponse u, Libs.sign libs (User._id u))).
Proof.
  intros Hu%falsy_false Hp%falsy_false. unfold UserService.loginUser.
  rewrite Hu, Hp. simpl.
  destruct (User_findOne _ users) as [u|] eqn:Hfind; [|by split; [|left]].
  apply User_findOne_Some in Hfind as [Hin Hname].
  destruct (Libs.compare libs password (User.password u)) eqn:Hcompare; simpl.
  - split; [done|]. right. by exists u.
  - split; [done|]. by left.
Qed.

Lemma login_outcomes_witness :
  "bob" ≠ "" ∧ "nope" ≠ "" ∧
  (UserService.loginUser toy_libs "bob" "nope" [ann; bob]).2 = [ann; bob] ∧
  (UserService.loginUser toy_libs "bob" "nope" [ann; bob]).1
    = Failure 401 "Invalid username or password".
Proof.
  split_and!; [done|done|..].
  - by apply (login_outcomes toy_libs "bob" "nope" [ann; bob]).
  - destruct (login_outcomes toy_libs "bob" "nope" [ann; bob])
      as [_ [Hfail|(u & _ & _ & _ & Hsuccess)]]; [done|done|done|].
    by vm_compute in Hsuccess.
Defined.

(** X16. [registerUser] adds no second user of a name or an address: with a
    name that a user has it answers 400 "Username already exists", also when
    the address is taken too; with a free name and an address that a user
    has, 400 "Email already exists". The users stay as they are. *)
Theorem register_rejects_taken libs defaults oid salt username email password
    users u :
  username ≠ "" → email ≠ "" → password ≠ "" → u ∈ users →
  (User.username u = username →
   UserService.registerUser libs defaults oid salt username email password users
     = (Failure 400 "Username already exists", users)) ∧
  (User.email u = email →
   (∀ v, v ∈ users → User.username v ≠ username) →
   UserService.registerUser libs defaults oid salt username email password users
     = (Failure 400 "Email already exists", users)).
Proof.
  intros Hu%falsy_false He%falsy_false Hp%falsy_false Hin.
  unfold UserService.registerUser. rewrite Hu, He, Hp. simpl. split.
  - intros Hname.
    destruct (User_findOne _ users) eqn:Hfind; [done|].
    by destruct (proj1 (User_findOne_None _ _) Hfind u Hin).
  - intros Hmail Hfree.
    rewrite (proj2 (User_findOne_None (λ v, User.username v = username) users))
      by done.
    destruct (User_findOne _ users) eqn:Hfind; [done|].
    by destruct (proj1 (User_findOne_None _ _) Hfind u Hin).
Qed.

Lemma register_rejects_taken_witness :
  "ann" ≠ "" ∧ "new@x.org" ≠ "" ∧ "pw" ≠ "" ∧ ann ∈ [ann; bob] ∧
  UserService.registerUser toy_libs toy_defaults "u3" "s3" "ann" "new@x.org"
    "pw" [ann; bob]
  = (Failure 400 "Username already exists", [ann; bob]).
Proof.
  split_and!; [done|done|done|by left|].
  apply (register_rejects_taken toy_libs toy_defaults "u3" "s3" "ann"
           "new@x.org" "pw" [ann; bob] ann); [done|done|done|by left|done].
Defined.

Lemma update_findOne_unique (f : User.t → string) id update users u :
  (∀ v, User._id (update v) = User._id v) →
  NoDup (f <$> User_findByIdAndUpdate id update users) →
  User_findById id users = Some u →
  User_findOne (λ v, f v = f (update u)) (User_findByIdAndUpdate id update users)
  = Some (update u).
Proof.
  intros Hid Hnodup Hfind. apply User_findOne_unique; [done|].
  apply (User_findOne_Some (λ v, User._id v = id)).
  change (User_findById id (User_findByIdAndUpdate id update users)
          = Some (update u)).
  by rewrite update_findById, Hfind.
Qed.

(** X17. After a successful [changePassword] the user logs in with the new
    password, given that [bcrypt.compare] accepts a password against its own
    hash and that no two users share a name. *)
Theorem changePassword_then_login libs salt userId currentPassword newPassword
    users u msg users' :
  (∀ s p, Libs.compare libs p (Libs.hash libs s p) = true) →
  NoDup (User.username <$> users) → User.username u ≠ "" →
  User_findById userId users = Some u →
  UserService.changePassword libs salt userId currentPassword newPassword users
    = (Success 200 msg, users') →
  ∃ token,
    UserService.loginUser libs (User.username u) newPassword users'
    = (Success 200 (userResponse u, token), users').
Proof.
  intros Hcompare Hnames Hname%falsy_false Hfind.
  unfold UserService.changePassword.
  destruct (falsy userId); [done|].
  destruct (falsy currentPassword); [done|].
  destruct (falsy newPassword) eqn:Hnew; [done|]. simpl.
  rewrite Hfind. destruct (negb _); [done|]. intros [= <- <-].
  unfold UserService.loginUser. rewrite Hname, Hnew. simpl.
  match goal with
  | |- context [User_findByIdAndUpdate userId ?update users] =>
      pose proof (update_findOne_unique User.username userId update users u)
        as Hlogin
  end.
  simpl in Hlogin. rewrite Hlogin; [|done| |done].
  - simpl. rewrite Hcompare. simpl. eauto.
  - by rewrite update_fmap_same.
Qed.

Lemma changePassword_then_login_witness :
  (∀ s p, Libs.compare toy_libs p (Libs.hash toy_libs s p) = true) ∧
  NoDup (User.username <$> [ann; bob]) ∧ User.username bob ≠ "" ∧
  User_findById "u2" [ann; bob] = Some bob ∧
  ∃ token,
    UserService.loginUser toy_libs "bob" "pw3"
      (UserService.changePassword toy_libs "s" "u2" "pw2" "pw3" [ann; bob]).2
    = (Success 200 (userResponse bob, token),
       (UserService.changePassword toy_libs "s" "u2" "pw2" "pw3" [ann; bob]).2).
Proof.
  assert (∀ s p, Libs.compare toy_libs p (Libs.hash toy_libs s p) = true)
    as Hcompare by (intros s p; by apply bool_decide_eq_true).
  assert (NoDup (User.username <$> [ann; bob])) as Hnames
    by (apply (bool_decide_unpack _); by vm_compute).
  split_and!; [done..|].
  by apply (changePassword_then_login toy_libs "s" "u2" "pw2" "pw3" [ann; bob]
              bob "Password changed successfully").
Defined.





(** X20. After a successful [updateUserProfile] with a new name, the user
    logs in under the new name with the password as before and is shown as
    the update answered, and the old name no longer logs in. *)
Theorem rename_then_login libs userId username email password users u view msg
    users' :
  users_distinct users → User_findById userId users = Some u →
  username ≠ "" → password ≠ "" →
  Libs.compare libs password (User.password u) = true →
  UserService.updateUserProfile userId username email users
    = (Success 200 (view, msg), users') →
  UserView.username view = username ∧
  (∃ token,
     UserService.loginUser libs username password users'
     = (Success 200 (view, token), users')) ∧
  (User.username u ≠ "" → User.username u ≠ username →
   UserService.loginUser libs (User.username u) password users'
   = (Failure 401 "Invalid username or password", users')).
Proof.
  intros Hdistinct Hfind Hname%falsy_false Hpassword%falsy_false Hcompare Hr.
  pose proof (updateUserProfile_distinct userId username email users Hdistinct)
    as (Hids' & Hnames' & _).
  rewrite Hr in Hids', Hnames'. simpl in Hids', Hnames'.
  destruct Hdistinct as (Hids & Hnames & _).
  unfold UserService.updateUserProfile in Hr.
  destruct (falsy userId); [done|].
  destruct (negb (falsy username) && _); [done|].
  destruct (negb (falsy email) && _); [done|].
  cbv zeta in Hr. rewrite update_findById, Hfind in Hr by done.
  simpl in Hr. injection Hr as <- <- <-.
  rewrite Hname in *. split_and!; [done| |].
  - unfold UserService.loginUser. rewrite Hname, Hpassword. simpl.
    match type of Hnames' with
    | NoDup (_ <$> User_findByIdAndUpdate userId ?update users) =>
        pose proof (update_findOne_unique User.username userId update users u)
          as Hlogin
    end.
    simpl in Hlogin. rewrite Hlogin by done. simpl.
    rewrite Hcompare. simpl. eauto.
  - intros Hold%falsy_false Hdiff.
    unfold UserService.loginUser. rewrite Hold, Hpassword. simpl.
    destruct (User_findOne _ _) as [x|] eqn:Hx; [|done].
    apply User_findOne_Some in Hx as [Hin Heq].
    apply update_elem_of_NoDup in Hin
      as [[Hin Hxid]|(w & Hw & Hwid & ->)]; [| |done].
    + destruct Hxid. apply User_findById_Some in Hfind as [Hu <-].
      f_equal. by apply (NoDup_fmap_eq User.username users).
    + simpl in Heq. congruence.
Qed.

Lemma rename_then_login_witness :
  let rob := User.mk "u2" "rob" "bob@x.org" "$pw2" "" false in
  users_distinct [ann; bob] ∧ User_findById "u2" [ann; bob] = Some bob ∧
  Libs.compare toy_libs "pw2" (User.password bob) = true ∧
  UserService.updateUserProfile "u2" "rob" "" [ann; bob]
    = (Success 200 (userResponse rob, "Profile updated successfully"),
       [ann; rob]) ∧
  UserService.loginUser toy_libs "bob" "pw2" [ann; rob]
    = (Failure 401 "Invalid username or password", [ann; rob]).
Proof.
  intros rob.
  assert (users_distinct [ann; bob]) as Hdistinct
    by (split_and!; apply (bool_decide_unpack _); by vm_compute).
  split_and!; [done..|].
  destruct (rename_then_login toy_libs "u2" "rob" "" "pw2" [ann; bob] bob
              (userResponse rob) "Profile updated successfully" [ann; rob])
    as (_ & _ & Hold); [done..|].
  by apply Hold.
Defined.

(** X21. The token that a successful [registerUser] hands out opens both
    kinds of route for the new user: [authenticateToken] leaves in
    [req.user] the user that the registration answered, and the message
    handlers authenticate as the new id. [jwt.verify] gives back the id that
    [jwt.sign] packed, and the id is new. *)
Theorem registered_token_authenticates libs defaults oid salt username email
    password users view token users' :
  oid ∉ (User._id <$> users) → Libs.sign libs oid ≠ "" →
  Libs.verify libs (Libs.sign libs oid) = Decoded oid →
  UserService.registerUser libs defaults oid salt username email password users
    = (Success 201 (view, token), users') →
  authenticateToken libs (Some ("Bearer " +:+ token)) users' = inl view ∧
  request_auth libs (Some ("Bearer " +:+ token)) = inl (Verified oid).
Proof.
  intros Hfresh Hsign%falsy_false Hverify
    (_ & _ & _ & _ & _ & -> & -> & ->)%registerUser_success.
  split.
  - unfold authenticateToken, AuthService.authenticateUser.
    rewrite extractTokenFromHeader_Bearer, Hsign.
    unfold AuthService.verifyToken. rewrite Hsign, Hverify.
    unfold User_findById.
    rewrite (User_findOne_snoc _ users
               (User.mk oid username email (Libs.hash libs salt password)
                  (default_avatarImage defaults)
                  (default_isAvatarImageSet defaults))); [done| |done].
    apply User_findOne_None. intros u Hu Hid. apply Hfresh, list_elem_of_fmap.
    by exists u.
  - unfold request_auth. cbn [fmap option_fmap option_map].
    by rewrite remove_first_prefix, Hsign, Hverify.
Qed.

Lemma registered_token_authenticates_witness :
  ("u2" ∉ (User._id <$> [ann])) ∧ Libs.sign toy_libs "u2" ≠ "" ∧
  Libs.verify toy_libs (Libs.sign toy_libs "u2") = Decoded "u2" ∧
  UserService.registerUser toy_libs toy_defaults "u2" "s2" "bob" "bob@x.org"
    "pw2" [ann]
    = (Success 201 (userResponse bob, "jwt.u2"), [ann; bob]) ∧
  authenticateToken toy_libs (Some "Bearer jwt.u2") [ann; bob]
    = inl (userResponse bob) ∧
  request_auth toy_libs (Some "Bearer jwt.u2") = inl (Verified "u2").
Proof.
  assert ("u2" ∉ (User._id <$> [ann])) as Hfresh
    by (apply (bool_decide_unpack _); by vm_compute).
  split_and!; [done..| |];
    by apply (registered_token_authenticates toy_libs toy_defaults "u2" "s2"
                "bob" "bob@x.org" "pw2" [ann] (userResponse bob) "jwt.u2"
                [ann; bob]).
Defined.

(** X22. [getAllUsers] for a requester id that casts to an [ObjectId] lists
    every user but the one of that id, each once: the ids of the contacts it
    answers are the ids of the users without the id of the requester, and no
    id comes twice. For a requester id that does not cast the query throws
    and the service answers 500. Either way it writes nothing. *)
Theorem getAllUsers_lists_the_others cast currentUserId users :
  currentUserId ≠ "" → NoDup (User._id <$> users) →
  (∀ oid, cast currentUserId = Some oid →
     ∃ contacts,
       UserService.getAllUsers cast currentUserId users
         = (Success 200 (contacts, currentUserId), users) ∧
       NoDup (Contact._id <$> contacts) ∧
       ∀ id, id ∈ Contact._id <$> contacts ↔
             id ∈ User._id <$> users ∧ id ≠ oid) ∧
  (cast currentUserId = None →
   UserService.getAllUsers cast currentUserId users
     = (Failure 500 "Failed to get users", users)).
Proof.
  intros Hcurrent%falsy_false Hids. unfold UserService.getAllUsers.
  rewrite Hcurrent. split; [|by intros ->].
  intros oid ->. eexists. split; [done|].
  rewrite <-list_fmap_compose.
  change (Contact._id ∘ contact) with User._id. split.
  - apply (sublist_NoDup _ _ Hids), fmap_sublist, sublist_filter.
  - intros id. rewrite !list_elem_of_fmap. split.
    + intros (u & -> & [Hu Hin]%list_elem_of_filter). split; [by exists u|done].
    + intros [(u & -> & Hin) Hid]. exists u. split; [done|].
      by apply list_elem_of_filter.
Qed.

Lemma getAllUsers_lists_the_others_witness :
  let ann' := User.mk id_u1 "ann" "ann@x.org" "$pw1" "" false in
  let bob' := User.mk id_u2 "bob" "bob@x.org" "$pw2" "" false in
  id_u1 ≠ "" ∧ "u1" ≠ "" ∧ NoDup (User._id <$> [ann'; bob']) ∧
  hex24 id_u1 = Some id_u1 ∧ hex24 "u1" = None ∧
  UserService.getAllUsers hex24 id_u1 [ann'; bob']
    = (Success 200 ([contact bob'], id_u1), [ann'; bob']) ∧
  UserService.getAllUsers hex24 "u1" [ann'; bob']
    = (Failure 500 "Failed to get users", [ann'; bob']).
Proof.
  intros ann' bob'.
  assert (NoDup (User._id <$> [ann'; bob'])) as Hids
    by (apply (bool_decide_unpack _); by vm_compute).
  destruct (getAllUsers_lists_the_others hex24 id_u1 [ann'; bob'])
    as [Hlisted _]; [done..|].
  destruct (Hlisted id_u1 eq_refl) as (contacts & Hanswer & _).
  destruct (getAllUsers_lists_the_others hex24 "u1" [ann'; bob'])
    as [_ Hthrown]; [done..|].
  split_and!; [done..| |by apply Hthrown].
  rewrite Hanswer. by vm_compute in Hanswer |- *.
Defined.
